(** * servr (lama.sh): request observer and upload sink

    A shallow embedding of [main.go]: the dispatcher [debugHandler.ServeHTTP],
    the renderer loop [debugHandler.logRequests], the upload sink
    [handleUploads] and the delegate wiring done in [main], together with the
    small part of Go's standard library these functions lean on
    ([path/filepath.Clean] and [Join], [os.CreateTemp], [os.Rename],
    [os.Remove], [http.Error], buffered channels).

    Paths, bodies and log lines are strings; the file system is a finite map
    from resolved paths to file contents; the outcome of each system call that
    the program cannot control (random temp names, I/O errors) is read from an
    explicit record that is passed to the handler. *)

From Stdlib Require Import Ascii String DecimalString.
From stdpp Require Import gmap strings list fin_maps.

Local Open Scope string_scope.
Local Open Scope list_scope.
Local Open Scope nat_scope.

(** ** Strings *)

Module Str.

(** [strings.HasPrefix(s, p)] *)
Fixpoint HasPrefix (s p : string) : bool :=
  match p, s with
  | EmptyString, _ => true
  | String a p', String b s' => if Ascii.eqb a b then HasPrefix s' p' else false
  | String _ _, EmptyString => false
  end.

(** [strings.Join(elems, sep)] *)
Fixpoint Join (elems : list string) (sep : string) : string :=
  match elems with
  | [] => ""
  | [e] => e
  | e :: rest => e +:+ sep +:+ Join rest sep
  end.

Fixpoint spaces (n : nat) : string :=
  match n with
  | O => ""
  | S n' => String " " (spaces n')
  end.

(** [fmt.Sprintf("%-Nv", s)]: the minus flag pads with spaces on the right
    up to a minimum width; longer strings are left as they are. *)
Definition pad_right (width : nat) (s : string) : string :=
  s +:+ spaces (width - String.length s).

(** Padding on the left of the text (what [%Nv] without the minus flag does). *)
Definition pad_left (width : nat) (s : string) : string :=
  spaces (width - String.length s) +:+ s.

(** [itoa.Uitoa]: decimal digits of an unsigned number. *)
Definition Uitoa (n : N) : string :=
  NilEmpty.string_of_uint (N.to_uint n).

(** Decimal digits, zero-padded on the left to at least [width] digits. *)
Fixpoint zeros (n : nat) : string :=
  match n with
  | O => ""
  | S n' => String "0" (zeros n')
  end.

Definition zpad (width : nat) (n : N) : string :=
  let d := Uitoa n in zeros (width - String.length d) +:+ d.

Fixpoint contains_char (c : ascii) (s : string) : bool :=
  match s with
  | EmptyString => false
  | String a s' => if Ascii.eqb a c then true else contains_char c s'
  end.

End Str.

(** ** path/filepath (Unix) *)

Module Filepath.

Definition Separator : ascii := "/"%char.

(** The path elements of [s]: the pieces between separators, empty pieces
    included. *)
Fixpoint elements (s : string) : list string :=
  match s with
  | EmptyString => [""]
  | String c s' =>
      if Ascii.eqb c Separator then "" :: elements s'
      else match elements s' with
           | e :: es => String c e :: es
           | [] => [String c ""]
           end
  end.

Definition IsAbs (s : string) : bool :=
  match s with
  | String c _ => Ascii.eqb c Separator
  | EmptyString => false
  end.

(** One iteration of the loop of [Clean], on the element just read.  The
    output buffer is kept as the list of elements written so far, the last
    one first.  An empty element and [.] are skipped; [..] removes the last
    element when there is one that is not itself [..], is dropped at the root
    of a rooted path, and is kept at the front of a relative path. *)
Definition clean_step (rooted : bool) (out : list string) (e : string) : list string :=
  if decide (e = "") then out
  else if decide (e = ".") then out
  else if decide (e = "..") then
    match out with
    | top :: rest => if decide (top = "..") then ".." :: out else rest
    | [] => if rooted then [] else [".."]
    end
  else e :: out.

Definition clean_elements (rooted : bool) (es : list string) : list string :=
  rev (fold_left (clean_step rooted) es []).

(** A resolved path: whether it starts at the root, and its elements. *)
Definition resolved : Type := bool * list string.

(** The file a path string names (no symbolic links, a fixed working
    directory): its cleaned elements. *)
Definition resolve (s : string) : resolved :=
  (IsAbs s, clean_elements (IsAbs s) (elements s)).

Definition render (p : resolved) : string :=
  match p with
  | (true, es) => String Separator (Str.Join es "/")
  | (false, []) => "."
  | (false, es) => Str.Join es "/"
  end.

(** [filepath.Clean] *)
Definition Clean (path : string) : string :=
  if decide (path = "") then "." else render (resolve path).

(** [filepath.Join(a, b)]: the first non-empty element and everything after
    it are joined with the separator and cleaned; all empty gives [""]. *)
Definition Join (a b : string) : string :=
  if decide (a = "") then
    if decide (b = "") then "" else Clean b
  else Clean (a +:+ "/" +:+ b).

(** [p] lies inside directory [d]: same root, the elements of [d] are the
    leading elements of [p], and none of the elements after them is [..]
    (a relative path that starts with [..] elements climbs out of whatever
    directory it is taken in). *)
Definition within (d p : resolved) : Prop :=
  d.1 = p.1
  ∧ take (length d.2) p.2 = d.2
  ∧ ".." ∉ drop (length d.2) p.2.

(** A path element that names something: not empty, not [.], not [..]. *)
Definition named (e : string) : Prop :=
  e ≠ "" ∧ e ≠ "." ∧ e ≠ "..".

Definition no_sep (e : string) : Prop :=
  Str.contains_char Separator e = false.

(** The shape of the output buffer of [Clean], last element first: names,
    and below them the [..] elements a relative path starts with. *)
Definition tidy (rooted : bool) (out : list string) : Prop :=
  ∃ names k, out = names ++ replicate k ".."
             ∧ Forall (λ e, named e ∧ no_sep e) names
             ∧ (rooted = true → k = 0).

(** The path string [p] stays confined to the directory string [dir]. *)
Definition confined (dir p : string) : Prop :=
  within (resolve dir) (resolve p).

#[global] Instance within_dec d p : Decision (within d p).
Proof. unfold within. apply _. Defined.

#[global] Instance confined_dec dir p : Decision (confined dir p).
Proof. unfold confined. apply _. Defined.

End Filepath.

(** ** The file system and the system calls the sink makes *)

Module OS.

(** Files by resolved path, with their contents. *)
Abbreviation FS := (gmap Filepath.resolved string).

(** What the environment decides during one handler call: the temporary
    directory, the random numbers [CreateTemp] draws (one per attempt), and
    which of the system calls fail, with the error text. [copy_err] also
    says how many bytes reached the file before the failure. *)
Record Env := {
  TempDir : string;
  random : nat → N;
  open_err : option string;
  copy_err : option (nat * string);
  rename_err : option string
}.

Definition exists_ (fs : FS) (name : string) : bool :=
  bool_decide (is_Some (fs !! Filepath.resolve name)).

Fixpoint lastStar (pattern : string) : option (string * string) :=
  match pattern with
  | EmptyString => None
  | String c rest =>
      match lastStar rest with
      | Some (p, q) => Some (String c p, q)
      | None => if Ascii.eqb c "*" then Some ("", rest) else None
      end
  end.

(** [prefixAndSuffix]: split the pattern at its last star. *)
Definition prefixAndSuffix (pattern : string) : string + (string * string) :=
  if Str.contains_char Filepath.Separator pattern
  then inl "pattern contains path separator"
  else match lastStar pattern with
       | Some ps => inr ps
       | None => inr (pattern, "")
       end.

(** [len(dir) > 0 && IsPathSeparator(dir[len(dir)-1])] *)
Fixpoint ends_with_sep (dir : string) : bool :=
  match dir with
  | EmptyString => false
  | String c EmptyString => Ascii.eqb c Filepath.Separator
  | String _ rest => ends_with_sep rest
  end.

Definition joinPath (dir name : string) : string :=
  if ends_with_sep dir then dir +:+ name
  else dir +:+ "/" +:+ name.

(** The retry loop of [CreateTemp]: a fresh random name on each attempt,
    opened with O_CREATE|O_EXCL; a name that exists is retried, at most
    10000 attempts in all. *)
Fixpoint CreateTemp_loop (env : Env) (fs : FS) (prefix suffix : string)
    (attempts try : nat) : string + (string * FS) :=
  match attempts with
  | O => inl ("createtemp " +:+ prefix +:+ "*" +:+ suffix +:+ ": file exists")
  | S attempts' =>
      let name := prefix +:+ Str.Uitoa (random env try) +:+ suffix in
      if exists_ fs name then CreateTemp_loop env fs prefix suffix attempts' (S try)
      else match open_err env with
           | Some e => inl e
           | None => inr (name, <[Filepath.resolve name := ""]> fs)
           end
  end.

Definition max_attempts : nat := 100 * 100.

(** The last element of the name [CreateTemp] makes from the pattern
    [lama-upload-*] and the random number [n]. *)
Definition temp_name (n : N) : string := "lama-upload-" +:+ Str.Uitoa n.

(** [os.CreateTemp(dir, pattern)] *)
Definition CreateTemp (env : Env) (fs : FS) (dir pattern : string)
    : string + (string * FS) :=
  let dir := if decide (dir = "") then TempDir env else dir in
  match prefixAndSuffix pattern with
  | inl e => inl ("createtemp " +:+ pattern +:+ ": " +:+ e)
  | inr (prefix, suffix) =>
      CreateTemp_loop env fs (joinPath dir prefix) suffix max_attempts 0
  end.

(** [io.Copy(file, body)] into an open file: the whole body, or only the
    first bytes of it and an error. *)
Definition Copy (env : Env) (fs : FS) (name : string) (body : string)
    : FS * option string :=
  match copy_err env with
  | Some (n, e) => (<[Filepath.resolve name := String.substring 0 n body]> fs, Some e)
  | None => (<[Filepath.resolve name := body]> fs, None)
  end.

(** [os.Rename(oldpath, newpath)]: atomic; a failed rename changes
    nothing, renaming a file to itself changes nothing. *)
Definition Rename (env : Env) (fs : FS) (oldpath newpath : string)
    : FS * option string :=
  match rename_err env with
  | Some e => (fs, Some e)
  | None =>
      match fs !! Filepath.resolve oldpath with
      | None => (fs, Some ("rename " +:+ oldpath +:+ " " +:+ newpath +:+ ": no such file or directory"))
      | Some content =>
          if decide (Filepath.resolve oldpath = Filepath.resolve newpath) then (fs, None)
          else (<[Filepath.resolve newpath := content]> (delete (Filepath.resolve oldpath) fs), None)
      end
  end.

(** [os.Remove(name)]; the program ignores its error. *)
Definition Remove (fs : FS) (name : string) : FS :=
  delete (Filepath.resolve name) fs.

End OS.

(** ** net/http *)

Module Url.
Record t := { Path : string; Host : string }.
End Url.

Module Http.

Abbreviation Header := (gmap string (list string)).

Record Request := {
  Method : string;
  Proto : string;
  RequestURI : string;
  URL : option Url.t;
  Host : string;
  Header_ : Header;
  TransferEncoding : list string;
  Close : bool;
  Body : string
}.

(** [Header.Get(key)] for a key already in canonical form: the first value
    stored under it, or the empty string. *)
Definition Header_Get (h : Header) (key : string) : string :=
  match h !! key with
  | Some (v :: _) => v
  | _ => ""
  end.

(** What a handler has written to its [ResponseWriter]: the status line
    once written, and the body.  A response left untouched is sent by the
    server with the default status and no body. *)
Record Response := { status : option nat; body : string }.

Definition untouched : Response := {| status := None; body := "" |}.

Definition StatusOK : nat := 200.
Definition StatusBadRequest : nat := 400.
Definition StatusInternalServerError : nat := 500.

Definition sent_status (w : Response) : nat := default StatusOK (status w).

(** [http.Error(w, msg, code)] *)
Definition Error (w : Response) (msg : string) (code : nat) : Response :=
  {| status := Some (default code (status w));
     body := body w +:+ msg +:+ String "010" "" |}.

(** How a handler call ends: it returns, or it panics (the server recovers
    the panic and drops the connection). *)
Inductive result :=
| Return (fs : OS.FS) (w : Response)
| Panic (fs : OS.FS) (w : Response) (msg : string).

Definition result_fs (r : result) : OS.FS :=
  match r with Return fs _ | Panic fs _ _ => fs end.

Definition result_resp (r : result) : Response :=
  match r with Return _ w | Panic _ w _ => w end.

(** [http.Handler]: [ServeHTTP(w, r)] as a function of the files and of the
    response written so far. *)
Definition Handler : Type := OS.Env → Request → OS.FS → Response → result.

Definition MethodPut : string := "PUT".
Definition MethodPost : string := "POST".

End Http.

Import Http.

(** ** The upload sink: [handleUploads] *)

Section Upload.

(** [r.FormFile(key)] of net/http: an error, or the content and the
    declared file name of the first file part stored under [key]. *)
Variable FormFile : Request → string → string + (string * string).

Inductive selected :=
| Forwarded
| Rejected (err : string)
| NilURL
| Upload (filename filebody : string).

(** The [switch] at the head of the handler. *)
Definition select_upload (r : Request) : selected :=
  if decide (Method r = MethodPut) then
    match URL r with
    | Some u => Upload (Url.Path u) (Body r)
    | None => NilURL
    end
  else if bool_decide (Method r = MethodPost) &&
          bool_decide (Header_Get (Header_ r) "Content-Type" = "multipart/form-data") then
    match FormFile r "file" with
    | inl err => Rejected err
    | inr (content, name) => Upload name content
    end
  else Forwarded.

(** The body of the handler after the [switch], for file name [filename]
    and content [filebody].  The deferred [os.Remove(tmpfile.Name())] runs
    on every path that follows a successful [CreateTemp]. *)
Definition store_upload (dir : string) (env : OS.Env) (filename filebody : string)
    (fs : OS.FS) (w : Response) : result :=
  match OS.CreateTemp env fs dir "lama-upload-*" with
  | inl err => Return fs (Error w err StatusInternalServerError)
  | inr (tmpfile, fs1) =>
      match OS.Copy env fs1 tmpfile filebody with
      | (fs2, Some err) =>
          Return (OS.Remove fs2 tmpfile)
                 (Error w ("failed to write file body: " +:+ err) StatusInternalServerError)
      | (fs2, None) =>
          match OS.Rename env fs2 tmpfile (Filepath.Join dir filename) with
          | (fs3, Some err) =>
              Return (OS.Remove fs3 tmpfile)
                     (Error w ("failed to rename file: " +:+ err) StatusInternalServerError)
          | (fs3, None) => Return (OS.Remove fs3 tmpfile) w
          end
      end
  end.

Definition handleUploads (dir : string) (handler : Handler) : Handler :=
  fun env r fs w =>
    match select_upload r with
    | Forwarded => handler env r fs w
    | Rejected err => Return fs (Error w err StatusBadRequest)
    | NilURL => Panic fs w "invalid memory address or nil pointer dereference"
    | Upload filename filebody => store_upload dir env filename filebody fs w
    end.

End Upload.

(** ** time.Time and its RFC3339 layout *)

Module Time.

Record t := {
  year : N; month : N; day : N;
  hour : N; minute : N; second : N;
  offset : Z  (* seconds east of UTC *)
}.

(** The [Z07:00] element of the layout. *)
Definition zone (off : Z) : string :=
  if decide (off = 0)%Z then "Z"
  else
    let zone := Z.quot off 60 in
    let sign := if decide (zone < 0)%Z then "-" else "+" in
    let zone := Z.to_N (Z.abs zone) in
    sign +:+ Str.zpad 2 (zone / 60) +:+ ":" +:+ Str.zpad 2 (zone mod 60).

(** [t.Format(time.RFC3339)], layout [2006-01-02T15:04:05Z07:00]. *)
Definition RFC3339 (t : t) : string :=
  Str.zpad 4 (year t) +:+ "-" +:+ Str.zpad 2 (month t) +:+ "-" +:+ Str.zpad 2 (day t)
  +:+ "T" +:+ Str.zpad 2 (hour t) +:+ ":" +:+ Str.zpad 2 (minute t) +:+ ":"
  +:+ Str.zpad 2 (second t) +:+ zone (offset t).

End Time.

(** ** The renderer: one iteration of [logRequests] *)

Inductive Color := fgURL | fgHeader | fgMethod | fgError | fgLama.

(** What the renderer puts on standard output, by the statement that prints
    it: the summary [Printf], the [Flush] of the tab writer with the lines
    buffered in it, and the closing [Println]. *)
Inductive Output :=
| Summary (line : string)
| Flush (lines : list string)
| Newline.

Definition crlf : string := String "013" (String "010" "").
Definition tab : string := String "009" "".

Section Renderer.

(** [c.Sprint(s)] of the colour package: the text with the escape
    sequences of colour [c] around it, or the bare text on a terminal
    without colours. *)
Variable Sprint : Color → string → string.

(** The [String] method of [url.URL]. *)
Variable URL_String : Url.t → string.

(** The order in which [range] visits the header map in this run. *)
Variable range : Header → list (string * list string).

(** [%v] of a pointer to a [url.URL]: its [String], or the nil marker. *)
Definition show_URL (u : option Url.t) : string :=
  match u with
  | Some u => URL_String u
  | None => "<nil>"
  end.

Definition method_column : nat := 7.

Definition summary_line (now : Time.t) (req : Request) : string :=
  Sprint fgMethod (Str.pad_right method_column (Method req)) +:+ " "
  +:+ Time.RFC3339 now +:+ " - " +:+ Proto req +:+ " "
  +:+ Sprint fgURL (show_URL (URL req)) +:+ crlf.

Definition headerPadding : string := Str.pad_right 8 " ".

Definition absRequestURI (req : Request) : bool :=
  Str.HasPrefix (RequestURI req) "http://" || Str.HasPrefix (RequestURI req) "https://".

(** The host that the [Host:] line shows. *)
Definition shown_host (req : Request) : string :=
  let host := Host req in
  if decide (host = "") then
    match URL req with
    | Some u => Url.Host u
    | None => host
    end
  else host.

Definition header_line (name value : string) : string :=
  headerPadding +:+ Sprint fgHeader name +:+ tab +:+ value +:+ crlf.

Definition host_lines (req : Request) : list string :=
  if absRequestURI req then []
  else if decide (shown_host req = "") then []
  else [header_line "Host:" (shown_host req)].

Definition transfer_encoding_lines (req : Request) : list string :=
  match TransferEncoding req with
  | [] => []
  | te => [header_line "Transfer-Encoding:" (Str.Join te ",")]
  end.

Definition connection_lines (req : Request) : list string :=
  if Close req then [header_line "Connection:" "close"] else [].

Definition header_lines (req : Request) : list string :=
  (λ kv, header_line (kv.1 +:+ ":") (Str.Join kv.2 ", ")) <$> range (Header_ req).

(** The lines written to the tab writer for one request, in order. *)
Definition dump_lines (req : Request) : list string :=
  host_lines req ++ transfer_encoding_lines req ++ connection_lines req
  ++ header_lines req.

(** One pass through the body of the [for] loop, for the request just
    received from the channel. *)
Definition render_request (DumpRequest : bool) (now : Time.t) (req : Request)
    : list Output :=
  Summary (summary_line now req)
  :: (if DumpRequest then [Flush (dump_lines req); Newline] else []).

End Renderer.

(** ** The dispatcher: [debugHandler] *)

(** The fields fixed at start-up.  A missing delegate is Go's nil
    [http.Handler].  [Writer] and [Logger] are state and live in [System]. *)
Record debugHandler := {
  Delegate : option Handler;
  DumpRequest : bool
}.

(** [make(chan *http.Request, 10)] *)
Definition Logger_cap : nat := 10.

(** Where the goroutine serving one request stands in [ServeHTTP]: before the
    channel send, between the send and the delegate call, or returned. *)
Inductive Pc := AtSend | AtDelegate | Finished.

Record Conn := {
  conn_req : Request;
  conn_pc : Pc;
  conn_resp : Response;
  conn_panic : option string
}.

(** The running server: the buffered channel, what the renderer has printed,
    one goroutine per request received, and the files. *)
Record System := {
  Logger : list Request;
  Stdout : list Output;
  conns : list Conn;
  files : OS.FS
}.

Definition boot (fs : OS.FS) : System :=
  {| Logger := []; Stdout := []; conns := []; files := fs |}.

(** The scheduler's choices.  [Accept r]: the server starts a goroutine that
    calls [ServeHTTP] for [r].  [Send i]: goroutine [i] completes
    [h.Logger <- req].  [Forward i env]: goroutine [i] runs the rest of
    [ServeHTTP]; the delegate call is taken as one step.  [Render now]: the
    renderer goroutine receives from the channel and prints. *)
Inductive Event :=
| Accept (r : Request)
| Send (i : nat)
| Forward (i : nat) (env : OS.Env)
| Render (now : Time.t).

(** What a step makes visible about the channel. *)
Inductive Obs :=
| Arrived (r : Request)
| Enqueued (r : Request)
| Served (r : Request)
| Dequeued (r : Request) (now : Time.t).

Section Dispatcher.

Variable Sprint : Color → string → string.
Variable URL_String : Url.t → string.
Variable range : Header → list (string * list string).

Variable h : debugHandler.

(** [h.Logger <- req]: possible only while the buffer has room; a full
    channel blocks the sender ([None]: no step). *)
Definition chan_send (ch : list Request) (req : Request) : option (list Request) :=
  if decide (length ch < Logger_cap) then Some (ch ++ [req]) else None.

(** [req := <-h.Logger]: the oldest element; an empty channel blocks the
    receiver. *)
Definition chan_recv (ch : list Request) : option (Request * list Request) :=
  match ch with
  | req :: rest => Some (req, rest)
  | [] => None
  end.

(** The rest of [ServeHTTP] after the send. *)
Definition delegate (env : OS.Env) (req : Request) (fs : OS.FS) (resp : Response)
    : result :=
  match Delegate h with
  | Some d => d env req fs resp
  | None => Return fs resp
  end.

Definition set_conn (s : System) (i : nat) (c : Conn) : list Conn :=
  <[i := c]> (conns s).

Definition step (s : System) (e : Event) : option (Obs * System) :=
  match e with
  | Accept r =>
      let c := {| conn_req := r; conn_pc := AtSend; conn_resp := untouched;
                  conn_panic := None |} in
      Some (Arrived r,
            {| Logger := Logger s; Stdout := Stdout s;
               conns := conns s ++ [c]; files := files s |})
  | Send i =>
      match conns s !! i with
      | Some c =>
          match conn_pc c with
          | AtSend =>
              match chan_send (Logger s) (conn_req c) with
              | Some ch =>
                  let c' := {| conn_req := conn_req c; conn_pc := AtDelegate;
                               conn_resp := conn_resp c; conn_panic := conn_panic c |} in
                  Some (Enqueued (conn_req c),
                        {| Logger := ch; Stdout := Stdout s;
                           conns := set_conn s i c'; files := files s |})
              | None => None
              end
          | _ => None
          end
      | None => None
      end
  | Forward i env =>
      match conns s !! i with
      | Some c =>
          match conn_pc c with
          | AtDelegate =>
              let r := delegate env (conn_req c) (files s) (conn_resp c) in
              let c' := {| conn_req := conn_req c; conn_pc := Finished;
                           conn_resp := result_resp r;
                           conn_panic := match r with
                                         | Panic _ _ msg => Some msg
                                         | Return _ _ => None
                                         end |} in
              Some (Served (conn_req c),
                    {| Logger := Logger s; Stdout := Stdout s;
                       conns := set_conn s i c'; files := result_fs r |})
          | _ => None
          end
      | None => None
      end
  | Render now =>
      match chan_recv (Logger s) with
      | Some (req, rest) =>
          Some (Dequeued req now,
                {| Logger := rest;
                   Stdout := Stdout s
                             ++ render_request Sprint URL_String range (DumpRequest h) now req;
                   conns := conns s; files := files s |})
      | None => None
      end
  end.

(** A schedule run from [s]: the observations, and the state reached;
    [None] when some event of the schedule cannot happen where it stands. *)
Fixpoint run (s : System) (evs : list Event) : option (list Obs * System) :=
  match evs with
  | [] => Some ([], s)
  | e :: evs' =>
      match step s e with
      | Some (o, s') =>
          match run s' evs' with
          | Some (os, s'') => Some (o :: os, s'')
          | None => None
          end
      | None => None
      end
  end.

End Dispatcher.

(** The requests sent on the channel, in the order of the sends. *)
Definition enqueued (os : list Obs) : list Request :=
  omap (λ o, match o with Enqueued r => Some r | _ => None end) os.

(** The requests the renderer received, in order, with the time of each. *)
Definition dequeued (os : list Obs) : list (Request * Time.t) :=
  omap (λ o, match o with Dequeued r now => Some (r, now) | _ => None end) os.

(** The summary lines on standard output, in order. *)
Definition summaries (out : list Output) : list string :=
  omap (λ o, match o with Summary l => Some l | _ => None end) out.

(** ** Start-up: the delegate chosen by [main] *)

Record Flags := {
  port : string;
  dir : string;
  localhost : bool;
  version : bool;
  dontDump : bool;
  dontServe : bool;
  enableUpload : bool
}.

Section Main.

Variable FormFile : Request → string → string + (string * string).

(** [http.FileServer(http.Dir(dir))] *)
Variable FileServer : string → Handler.

(** The handler built by [main] from the flags. *)
Definition main_handler (f : Flags) : debugHandler :=
  let DumpRequest := negb (dontDump f) in
  if negb (dontServe f) then
    let d := FileServer (dir f) in
    if enableUpload f
    then {| Delegate := Some (handleUploads FormFile (dir f) d); DumpRequest := DumpRequest |}
    else {| Delegate := Some d; DumpRequest := DumpRequest |}
  else {| Delegate := None; DumpRequest := DumpRequest |}.

End Main.

(** ** The summary line as the specification words it *)

Section SpecWords.

Variable Sprint : Color → string → string.
Variable URL_String : Url.t → string.

(** The same fields in the same order, the method padded on its left up
    to the column width. *)
Definition spec_summary_line (now : Time.t) (req : Request) : string :=
  Sprint fgMethod (Str.pad_left method_column (Method req)) +:+ " "
  +:+ Time.RFC3339 now +:+ " - " +:+ Proto req +:+ " "
  +:+ Sprint fgURL (show_URL URL_String (URL req)) +:+ crlf.

End SpecWords.

(** ** An absolute URI as the specification words it *)

Definition is_alpha (c : ascii) : bool :=
  let n := nat_of_ascii c in
  (65 <=? n) && (n <=? 90) || (97 <=? n) && (n <=? 122).

Definition is_digit (c : ascii) : bool :=
  let n := nat_of_ascii c in (48 <=? n) && (n <=? 57).

Definition is_scheme_char (c : ascii) : bool :=
  is_alpha c || is_digit c || Ascii.eqb c "+" || Ascii.eqb c "-" || Ascii.eqb c ".".

Fixpoint skip_scheme (s : string) : string :=
  match s with
  | String c rest => if is_scheme_char c then skip_scheme rest else s
  | EmptyString => ""
  end.

(** A URI that carries its host inline: a scheme (a letter, then letters,
    digits, [+], [-] or [.], in either case), then [://] and the rest. *)
Definition spec_absolute_URI (uri : string) : bool :=
  match uri with
  | String c rest => is_alpha c && Str.HasPrefix (skip_scheme rest) "://"
  | EmptyString => false
  end.

(** ** Sample inputs *)

Module Sample.

(** The colour package on an output that is not a terminal. *)
Definition plain : Color → string → string := λ _ s, s.

(** A URL that consists of a path only. *)
Definition path_only : Url.t → string := Url.Path.

Definition in_key_order : Header → list (string * list string) := map_to_list.

Definition noon : Time.t :=
  {| Time.year := 2019; Time.month := 3; Time.day := 7;
     Time.hour := 12; Time.minute := 5; Time.second := 9; Time.offset := 3600 |}.

Definition request (method uri host : string) (u : option Url.t)
    (hdr : Header) (content : string) : Request :=
  {| Method := method; Proto := "HTTP/1.1"; RequestURI := uri; URL := u;
     Host := host; Header_ := hdr; TransferEncoding := []; Close := false;
     Body := content |}.

Definition at_path (path : string) : option Url.t :=
  Some {| Url.Path := path; Url.Host := "" |}.

Definition get (path : string) : Request :=
  request "GET" path "localhost:8080" (at_path path) ∅ "".

Definition put (path content : string) : Request :=
  request "PUT" path "localhost:8080" (at_path path) ∅ content.

Definition dq : string := String "034" "".

(** A form upload as a browser or curl sends it: the boundary is a
    parameter of the content type. *)
Definition form_content : string :=
  "--XYZ" +:+ crlf
  +:+ "Content-Disposition: form-data; name=" +:+ dq +:+ "file" +:+ dq
  +:+ "; filename=" +:+ dq +:+ "bar.txt" +:+ dq +:+ crlf +:+ crlf
  +:+ "world" +:+ crlf +:+ "--XYZ--" +:+ crlf.

Definition form_post : Request :=
  request "POST" "/" "localhost:8080" (at_path "/")
          {[ "Content-Type" := ["multipart/form-data; boundary=XYZ"] ]}
          form_content.

(** A form parser that finds the file part of [form_content]. *)
Definition found_bar : Request → string → string + (string * string) :=
  λ _ _, inr ("world", "bar.txt").

Definition not_found : Handler :=
  λ _ _ fs w, Return fs (Error w "404 page not found" 404).

(** Every system call succeeds; temp names count up from 1234567. *)
Definition calm : OS.Env :=
  {| OS.TempDir := "/tmp"; OS.random := λ n, (1234567 + N.of_nat n)%N;
     OS.open_err := None; OS.copy_err := None; OS.rename_err := None |}.

(** The copy breaks off after two bytes. *)
Definition short_write : OS.Env :=
  {| OS.TempDir := "/tmp"; OS.random := λ n, (1234567 + N.of_nat n)%N;
     OS.open_err := None; OS.copy_err := Some (2, "no space left on device");
     OS.rename_err := None |}.

(** The rename is refused. *)
Definition no_rename : OS.Env :=
  {| OS.TempDir := "/tmp"; OS.random := λ n, (1234567 + N.of_nat n)%N;
     OS.open_err := None; OS.copy_err := None;
     OS.rename_err := Some "permission denied" |}.

Definition flags (no_serve upload : bool) : Flags :=
  {| port := "8080"; dir := "/srv/www"; localhost := false; version := false;
     dontDump := false; dontServe := no_serve; enableUpload := upload |}.

Definition no_delegate : debugHandler := {| Delegate := None; DumpRequest := true |}.

(** Eleven requests arrive, the first ten are sent on the channel, the
    renderer does not run. *)
Definition eleven_arrivals : list Event :=
  ((λ n, Accept (get ("/" +:+ Str.Uitoa (N.of_nat n)))) <$> seq 0 11)
  ++ (Send <$> seq 0 10).

(** Two requests arrive; the later one gets onto the channel first. *)
Definition overtaking : list Event :=
  [Accept (get "/a"); Accept (get "/b"); Send 1; Render noon; Send 0;
   Forward 1 calm; Forward 0 calm].

(** The observations and the state after a schedule, from an empty
    directory, with no delegate and colours off. *)
Definition after (evs : list Event) : list Obs * System :=
  default ([], boot ∅) (run plain path_only in_key_order no_delegate (boot ∅) evs).

(** The first name [CreateTemp] tries in [/srv/www]. *)
Definition first_temp : string :=
  OS.joinPath "/srv/www" (OS.temp_name (OS.random calm 0)).

Definition with_first_temp : OS.FS := <[Filepath.resolve first_temp := ""]> ∅.

Definition waiting (r : Request) : Conn :=
  {| conn_req := r; conn_pc := AtSend; conn_resp := untouched; conn_panic := None |}.

Definition file_server : string → Handler := λ _, not_found.

(** The upload sink of [/srv/www] around the sample file server. *)
Definition with_sink : debugHandler :=
  {| Delegate := Some (handleUploads found_bar "/srv/www" not_found);
     DumpRequest := true |}.

(** A request whose absolute URI has its scheme in capitals. *)
Definition shouted : Request :=
  request "GET" "HTTP://example.org/x" "example.org"
          (Some {| Url.Path := "/x"; Url.Host := "example.org" |}) ∅ "".

(** A request with an absolute URI and two header keys. *)
Definition proxied : Request :=
  request "GET" "http://example.org/x" "example.org"
          (Some {| Url.Path := "/x"; Url.Host := "example.org" |})
          {[ "Accept" := ["text/html"; "*/*"]; "User-Agent" := ["curl/8.0"] ]} "".

End Sample.

(** No handler has touched the files or any response. *)
Definition idle (fs : OS.FS) (s : System) : Prop :=
  files s = fs
  ∧ Forall (λ c, conn_resp c = untouched ∧ conn_panic c = None) (conns s).

Definition with_enableUpload (f : Flags) (b : bool) : Flags :=
  {| port := port f; dir := dir f; localhost := localhost f; version := version f;
     dontDump := dontDump f; dontServe := dontServe f; enableUpload := b |}.

(** ** More of what a run shows *)

(** The requests for which a goroutine was started, in order. *)
Definition arrived (os : list Obs) : list Request :=
  omap (λ o, match o with Arrived r => Some r | _ => None end) os.

(** The requests whose [ServeHTTP] has returned, in order of return. *)
Definition served (os : list Obs) : list Request :=
  omap (λ o, match o with Served r => Some r | _ => None end) os.

#[global] Instance Pc_eq_dec : EqDecision Pc.
Proof. solve_decision. Defined.

(** The goroutine has completed [h.Logger <- req]. *)
Definition past_send (c : Conn) : Prop := conn_pc c ≠ AtSend.

(** The goroutine has returned from [ServeHTTP]. *)
Definition finished (c : Conn) : Prop := conn_pc c = Finished.

#[global] Instance past_send_dec c : Decision (past_send c).
Proof. unfold past_send. apply _. Defined.

#[global] Instance finished_dec c : Decision (finished c).
Proof. unfold finished. apply _. Defined.

Section Blocks.

Variable Sprint : Color → string → string.
Variable URL_String : Url.t → string.
Variable range : Header → list (string * list string).

(** What the renderer prints for a sequence of received requests: the
    output of one pass of the loop for each, one after the other. *)
Definition blocks (DumpRequest : bool) (received : list (Request * Time.t))
    : list Output :=
  concat ((λ p, render_request Sprint URL_String range DumpRequest p.2 p.1)
            <$> received).

End Blocks.

(** Two states of the server that agree on the channel, on the output and, per
    goroutine, on the request and on where it stands. *)
Definition same_log (s1 s2 : System) : Prop :=
  Logger s1 = Logger s2
  ∧ Stdout s1 = Stdout s2
  ∧ Forall2 (λ c1 c2, conn_req c1 = conn_req c2 ∧ conn_pc c1 = conn_pc c2)
            (conns s1) (conns s2).

(** Two states that agree on everything but the output. *)
Definition same_service (s1 s2 : System) : Prop :=
  Logger s1 = Logger s2 ∧ conns s1 = conns s2 ∧ files s1 = files s2.

(** The part of the start-up banner that says what is served. *)
Definition fileStatement (f : Flags) : string :=
  if negb (dontServe f) then
    let fileStatement := "files from " +:+ dir f +:+ " " in
    if enableUpload f then fileStatement +:+ "(with upload support) "
    else fileStatement
  else "".

Definition with_dontDump (f : Flags) (b : bool) : Flags :=
  {| port := port f; dir := dir f; localhost := localhost f; version := version f;
     dontDump := b; dontServe := dontServe f; enableUpload := enableUpload f |}.

(** * Properties *)

(** ** The channel between dispatcher and renderer *)

Section Pipeline.

Variable Sprint : Color → string → string.
Variable URL_String : Url.t → string.
Variable range : Header → list (string * list string).
Variable h : debugHandler.

Local Abbreviation hstep := (step Sprint URL_String range h).
Local Abbreviation hrun := (run Sprint URL_String range h).
Local Abbreviation summary_of :=
  (λ p : Request * Time.t, summary_line Sprint URL_String p.2 p.1).

Lemma summaries_render dump now req :
  summaries (render_request Sprint URL_String range dump now req)
  = [summary_line Sprint URL_String now req].
Proof. by destruct dump. Qed.

Lemma summaries_app out1 out2 :
  summaries (out1 ++ out2) = summaries out1 ++ summaries out2.
Proof. apply omap_app. Qed.

Lemma chan_send_Some ch req ch' :
  chan_send ch req = Some ch' ↔ length ch < Logger_cap ∧ ch' = ch ++ [req].
Proof.
  unfold chan_send. destruct (decide _) as [Hl|Hl]; split.
  - by intros [= <-].
  - by intros [_ ->].
  - done.
  - by intros [? _].
Qed.

(** One step keeps the channel a queue: what was in it or was sent is what
    was received or is still in it, in that order. *)
Lemma step_fifo s e o s' :
  hstep s e = Some (o, s') →
  (dequeued [o]).*1 ++ Logger s' = Logger s ++ enqueued [o]
  ∧ summaries (Stdout s') = summaries (Stdout s) ++ (summary_of <$> dequeued [o])
  ∧ (length (Logger s) ≤ Logger_cap → length (Logger s') ≤ Logger_cap).
Proof.
  destruct e as [r | i | i env | now]; simpl.
  - intros [= <- <-]; simpl. by rewrite !app_nil_r.
  - destruct (conns s !! i) as [c|]; [|done].
    destruct (conn_pc c); try done.
    destruct (chan_send _ _) as [ch|] eqn:Hsend; [|done].
    apply chan_send_Some in Hsend as [Hlen ->].
    intros [= <- <-]; simpl. rewrite app_nil_r.
    split_and!; [done..|]. rewrite length_app; simpl. lia.
  - destruct (conns s !! i) as [c|]; [|done].
    destruct (conn_pc c); try done.
    intros [= <- <-]; simpl. by rewrite !app_nil_r.
  - destruct (Logger s) as [|req rest] eqn:Hch; [done|]; simpl.
    intros [= <- <-]; simpl.
    rewrite summaries_app, summaries_render, app_nil_r.
    split_and!; [done..|]. lia.
Qed.

Lemma enqueued_cons o os : enqueued (o :: os) = enqueued [o] ++ enqueued os.
Proof. by destruct o. Qed.

Lemma dequeued_cons o os : dequeued (o :: os) = dequeued [o] ++ dequeued os.
Proof. by destruct o. Qed.

Lemma run_fifo evs : ∀ s os s',
  hrun s evs = Some (os, s') →
  (dequeued os).*1 ++ Logger s' = Logger s ++ enqueued os
  ∧ summaries (Stdout s') = summaries (Stdout s) ++ (summary_of <$> dequeued os)
  ∧ (length (Logger s) ≤ Logger_cap → length (Logger s') ≤ Logger_cap).
Proof.
  induction evs as [|e evs IH]; intros s os s'; simpl.
  - intros [= <- <-]; simpl. by rewrite !app_nil_r.
  - destruct (hstep s e) as [[o s1]|] eqn:Hstep; [|done].
    destruct (hrun s1 evs) as [[os1 s2]|] eqn:Hrun; [|done].
    intros [= <- <-].
    apply step_fifo in Hstep as (Hq1 & Hs1 & Hc1).
    apply IH in Hrun as (Hq2 & Hs2 & Hc2).
    rewrite enqueued_cons, dequeued_cons, !fmap_app.
    split_and!.
    + rewrite <- (assoc_L (++)), Hq2, !(assoc_L (++)). by rewrite Hq1.
    + by rewrite Hs2, Hs1, <- (assoc_L (++)).
    + auto.
Qed.

(** With nothing else scheduled, the renderer empties the channel, one
    request per pass, oldest first. *)
Lemma run_drain nows : ∀ s,
  length nows = length (Logger s) →
  ∃ s', hrun s (Render <$> nows) = Some (zip_with Dequeued (Logger s) nows, s')
        ∧ Logger s' = [] ∧ conns s' = conns s ∧ files s' = files s.
Proof.
  induction nows as [|now nows IH]; intros s Hlen.
  - destruct (Logger s) eqn:Hch; [|done]. by exists s.
  - destruct (Logger s) as [|req rest] eqn:Hch; [done|].
    rewrite fmap_cons. cbn [run step]. rewrite Hch. cbn [chan_recv].
    set (s1 := {| Logger := rest; Stdout := _; conns := _; files := _ |}).
    destruct (IH s1) as (s' & Hrun & ? & ? & ?); [simpl in *; lia|].
    exists s'. by rewrite Hrun.
Qed.

Lemma dequeued_zip (ch : list Request) : ∀ nows,
  length nows = length ch → (dequeued (zip_with Dequeued ch nows)).*1 = ch.
Proof.
  induction ch as [|r ch IH]; intros [|now nows] Hlen; simpl in *; try done.
  f_equal. apply IH. lia.
Qed.

Lemma run_app evs1 : ∀ evs2 s os1 s1 os2 s2,
  hrun s evs1 = Some (os1, s1) → hrun s1 evs2 = Some (os2, s2) →
  hrun s (evs1 ++ evs2) = Some (os1 ++ os2, s2).
Proof.
  induction evs1 as [|e evs1 IH]; intros evs2 s os1 s1 os2 s2; simpl.
  - by intros [= <- <-].
  - destruct (hstep s e) as [[o s']|]; [|done].
    destruct (hrun s' evs1) as [[os' s'']|] eqn:Hrun; [|done].
    intros [= <- <-] H2. by rewrite (IH _ _ _ _ _ _ Hrun H2).
Qed.

Lemma dequeued_app os1 os2 : dequeued (os1 ++ os2) = dequeued os1 ++ dequeued os2.
Proof. apply omap_app. Qed.

Lemma enqueued_zip (ch : list Request) nows : enqueued (zip_with Dequeued ch nows) = [].
Proof. revert nows. induction ch; intros [|??]; simpl; auto. Qed.

(** C5. Whatever the interleaving of request goroutines and renderer, the
    requests the renderer has received followed by those still in the
    channel are exactly the requests sent on it, in the order of the sends;
    standard output holds one summary line per received request, in that
    order; and once the renderer has run through the channel it has printed
    as many summary lines as requests were sent, first sent first. *)
Theorem observer_fifo fs evs os s :
  hrun (boot fs) evs = Some (os, s) →
  (dequeued os).*1 ++ Logger s = enqueued os
  ∧ summaries (Stdout s) = summary_of <$> dequeued os
  ∧ ∀ nows, length nows = length (Logger s) →
      ∃ os' s', hrun (boot fs) (evs ++ (Render <$> nows)) = Some (os', s')
        ∧ Logger s' = []
        ∧ enqueued os' = enqueued os
        ∧ (dequeued os').*1 = enqueued os
        ∧ summaries (Stdout s') = summary_of <$> dequeued os'
        ∧ length (summaries (Stdout s')) = length (enqueued os).
Proof.
  intros Hrun. pose proof (run_fifo _ _ _ _ Hrun) as (Hq & Hs & _).
  simpl in Hq, Hs. split_and!; [done..|].
  intros nows Hlen.
  destruct (run_drain nows s Hlen) as (s' & Hdrain & Hempty & _).
  pose proof (run_app _ _ _ _ _ _ _ Hrun Hdrain) as Hall.
  pose proof (run_fifo _ _ _ _ Hall) as (Hq' & Hs' & _).
  simpl in Hq', Hs'. rewrite Hempty, app_nil_r in Hq'.
  eexists _, s'. split; [exact Hall|].
  assert (enqueued (os ++ zip_with Dequeued (Logger s) nows) = enqueued os) as He.
  { unfold enqueued at 1. rewrite omap_app. fold (enqueued os).
    fold (enqueued (zip_with Dequeued (Logger s) nows)).
    by rewrite enqueued_zip, app_nil_r. }
  rewrite He in Hq'. split_and!; [done..|].
  by rewrite Hs', length_fmap, <- Hq', length_fmap.
Qed.

Lemma run_capacity fs evs os s :
  hrun (boot fs) evs = Some (os, s) → length (Logger s) ≤ Logger_cap.
Proof.
  intros Hrun. apply run_fifo in Hrun as (_ & _ & Hcap).
  apply Hcap. simpl. unfold Logger_cap. lia.
Qed.

(** A goroutine waiting at the send is left as it is by every step other
    than its own send. *)
Lemma step_keeps_sender s e o s' i c :
  conns s !! i = Some c → conn_pc c = AtSend →
  hstep s e = Some (o, s') → e ≠ Send i →
  conns s' !! i = Some c.
Proof.
  intros Hc Hpc Hstep Hne.
  destruct e as [r | j | j env | now]; simpl in Hstep.
  - injection Hstep as <- <-; simpl.
    rewrite lookup_app_l; [done|]. by eapply lookup_lt_Some.
  - destruct (conns s !! j) as [cj|] eqn:Hj; [|done].
    destruct (conn_pc cj); try done.
    destruct (chan_send _ _); [|done].
    injection Hstep as <- <-; simpl. unfold set_conn.
    rewrite list_lookup_insert_ne; [done|]. congruence.
  - destruct (conns s !! j) as [cj|] eqn:Hj; [|done].
    destruct (conn_pc cj) eqn:Hpcj; try done.
    injection Hstep as <- <-; simpl. unfold set_conn.
    rewrite list_lookup_insert_ne; [done|]. intros ->. congruence.
  - destruct (chan_recv _) as [[req rest]|]; [|done].
    by injection Hstep as <- <-.
Qed.

(** C6. The channel holds at most ten requests.  When it holds ten, no
    goroutine can complete its send: the step does not exist, the goroutine
    stays where it is with its request while anything else runs, and the
    request is in no way discarded.  The renderer can always take the
    oldest request out of a full channel, and after that the waiting
    goroutine's send goes through and puts its request at the back. *)
Theorem logger_backpressure fs evs os s :
  hrun (boot fs) evs = Some (os, s) →
  Logger_cap = 10
  ∧ length (Logger s) ≤ 10
  ∧ (length (Logger s) = 10 →
      (∀ i, hstep s (Send i) = None)
      ∧ (∀ i c e o s', conns s !! i = Some c → conn_pc c = AtSend →
           hstep s e = Some (o, s') → conns s' !! i = Some c)
      ∧ (∀ now, ∃ r s1, hstep s (Render now) = Some (Dequeued r now, s1)
           ∧ Logger s = r :: Logger s1
           ∧ ∀ i c, conns s !! i = Some c → conn_pc c = AtSend →
               ∃ s2, hstep s1 (Send i) = Some (Enqueued (conn_req c), s2)
                     ∧ Logger s2 = Logger s1 ++ [conn_req c])).
Proof.
  intros Hrun. pose proof (run_capacity _ _ _ _ Hrun) as Hcap.
  split; [done|]. split; [exact Hcap|]. intros Hfull.
  assert (∀ i, hstep s (Send i) = None) as Hblocked.
  { intros i. simpl. destruct (conns s !! i) as [c|]; [|done].
    destruct (conn_pc c); try done.
    unfold chan_send. destruct (decide _) as [Hlt|]; [|done].
    unfold Logger_cap in Hlt. lia. }
  split_and!; [exact Hblocked| |].
  - intros i c e o s' Hc Hpc Hstep.
    eapply step_keeps_sender; [done..|].
    intros ->. by rewrite Hblocked in Hstep.
  - intros now. destruct (Logger s) as [|r rest] eqn:Hch; [done|].
    eexists r, _. simpl. rewrite Hch. simpl.
    split_and!; [done..|].
    intros i c Hc Hpc. simpl. rewrite Hc, Hpc.
    unfold chan_send. destruct (decide _) as [|Hge].
    + by eexists.
    + simpl in Hfull. unfold Logger_cap in Hge. lia.
Qed.

(** C7. A goroutine that has not yet sent its request cannot reach the
    delegate.  Its send, when the channel has room, appends the request to
    the channel and changes nothing else: not the files, not the output,
    not the response, not another goroutine.  The step after the send hands
    the same request, with the files and the response as they are, to the
    delegate when there is one, and its result is the result of
    [ServeHTTP]; with no delegate [ServeHTTP] returns at once, leaving
    files, channel and response as they were. *)
Theorem dispatcher_enqueue_then_forward s i c env :
  conns s !! i = Some c → conn_pc c = AtSend → length (Logger s) < Logger_cap →
  hstep s (Forward i env) = None
  ∧ ∃ s1 s2 c1 c2,
      hstep s (Send i) = Some (Enqueued (conn_req c), s1)
      ∧ Logger s1 = Logger s ++ [conn_req c]
      ∧ files s1 = files s ∧ Stdout s1 = Stdout s
      ∧ conns s1 = <[i := c1]> (conns s)
      ∧ conn_req c1 = conn_req c ∧ conn_resp c1 = conn_resp c
      ∧ conn_pc c1 = AtDelegate
      ∧ hstep s1 (Forward i env) = Some (Served (conn_req c), s2)
      ∧ Logger s2 = Logger s1 ∧ Stdout s2 = Stdout s1
      ∧ conns s2 = <[i := c2]> (conns s)
      ∧ conn_req c2 = conn_req c ∧ conn_pc c2 = Finished
      ∧ (∀ d, Delegate h = Some d →
           files s2 = result_fs (d env (conn_req c) (files s) (conn_resp c))
           ∧ conn_resp c2 = result_resp (d env (conn_req c) (files s) (conn_resp c)))
      ∧ (Delegate h = None →
           files s2 = files s ∧ conn_resp c2 = conn_resp c ∧ conn_panic c2 = None
           ∧ (conn_resp c = untouched →
                sent_status (conn_resp c2) = StatusOK ∧ body (conn_resp c2) = "")).
Proof.
  intros Hc Hpc Hroom.
  assert (i < length (conns s)) as Hi by by eapply lookup_lt_Some.
  split; [simpl; by rewrite Hc, Hpc|].
  eexists _, _, _, _. simpl. rewrite Hc, Hpc.
  unfold chan_send. destruct (decide _) as [_|]; [|done].
  split; [reflexivity|]. simpl. unfold set_conn.
  rewrite list_lookup_insert_eq by done. simpl.
  rewrite list_insert_insert_eq.
  split_and!; try reflexivity.
  - intros d Hd. unfold delegate. by rewrite Hd.
  - intros Hd. unfold delegate. rewrite Hd. simpl.
    split_and!; try done. by intros ->.
Qed.

End Pipeline.

(** ** The renderer's lines *)

Section RendererFacts.

Variable Sprint : Color → string → string.
Variable URL_String : Url.t → string.
Variable range : Header → list (string * list string).

Lemma Str_length_app (a b : string) :
  String.length (a +:+ b) = String.length a + String.length b.
Proof. induction a as [|c a IH]; simpl; [done|]. by rewrite IH. Qed.

Lemma Str_length_spaces n : String.length (Str.spaces n) = n.
Proof. induction n as [|n IH]; simpl; [done|]. by rewrite IH. Qed.

(** C8, as the code has it.  In dump mode the lines handed to the tab
    writer start with the host lines.  For a request URI that begins with
    [http://] or [https://], in lower case, there is none.  Otherwise there
    is one line: eight spaces, the coloured text [Host:], a tab, the host and
    CR LF, where the host is the request's host field when that is not
    empty and the host of the URL when the field is empty and the URL's host
    is not; there is no line when both are empty. *)
Theorem host_line_rule now req :
  render_request Sprint URL_String range true now req
  = [Summary (summary_line Sprint URL_String now req);
     Flush (host_lines Sprint req
            ++ transfer_encoding_lines Sprint req ++ connection_lines Sprint req
            ++ header_lines Sprint range req);
     Newline]
  ∧ (Str.HasPrefix (RequestURI req) "http://" = true
     ∨ Str.HasPrefix (RequestURI req) "https://" = true →
       host_lines Sprint req = [])
  ∧ (Str.HasPrefix (RequestURI req) "http://" = false →
     Str.HasPrefix (RequestURI req) "https://" = false →
     Host req ≠ "" →
       host_lines Sprint req
       = ["        " +:+ Sprint fgHeader "Host:" +:+ String "009" ""
          +:+ Host req +:+ String "013" (String "010" "")])
  ∧ (∀ u, Str.HasPrefix (RequestURI req) "http://" = false →
          Str.HasPrefix (RequestURI req) "https://" = false →
          Host req = "" → URL req = Some u → Url.Host u ≠ "" →
       host_lines Sprint req
       = ["        " +:+ Sprint fgHeader "Host:" +:+ String "009" ""
          +:+ Url.Host u +:+ String "013" (String "010" "")])
  ∧ (Host req = "" → (∀ u, URL req = Some u → Url.Host u = "") →
       host_lines Sprint req = []).
Proof.
  split; [reflexivity|]. unfold host_lines, shown_host, absRequestURI. split_and!.
  - intros [-> | ->]; [done|]. by rewrite orb_true_r.
  - intros -> -> Hh. simpl. destruct (decide (Host req = "")) as [|_]; [done|].
    by destruct (decide (Host req = "")).
  - intros u -> -> Hh Hu Hne. rewrite Hh, Hu. simpl.
    by destruct (decide (Url.Host u = "")).
  - intros Hh Hu. rewrite Hh. simpl. destruct (_ || _); [done|].
    destruct (URL req) as [u|]; [|done].
    rewrite (Hu u eq_refl). done.
Qed.

Lemma HasPrefix_app s p : Str.HasPrefix s p = true → ∃ rest, s = p +:+ rest.
Proof.
  revert s. induction p as [|a p IH]; intros s; [by exists s|].
  destruct s as [|b s]; simpl; [done|].
  destruct (Ascii.eqb a b) eqn:Hab; [|done].
  apply Ascii.eqb_eq in Hab as ->. intros [rest ->]%IH. by exists rest.
Qed.

(** The code's test picks out absolute URIs only. *)
Lemma absRequestURI_absolute req :
  absRequestURI req = true → spec_absolute_URI (RequestURI req) = true.
Proof.
  unfold absRequestURI. intros [H|H]%orb_true_iff;
    apply HasPrefix_app in H as [rest ->]; by destruct rest.
Qed.

(** C9, as the code has it.  The summary line is the coloured method,
    a space, the time in RFC3339 layout, [ - ], the protocol, a space, the
    coloured URL and CR LF.  The method is followed by spaces up to a width
    of seven characters: the spaces come after the name, and a name of
    seven characters or more gets none and is not cut. *)
Theorem summary_line_layout now req :
  summary_line Sprint URL_String now req
  = Sprint fgMethod (Method req +:+ Str.spaces (7 - String.length (Method req)))
    +:+ " " +:+ Time.RFC3339 now +:+ " - " +:+ Proto req +:+ " "
    +:+ Sprint fgURL (show_URL URL_String (URL req)) +:+ crlf
  ∧ String.length (Str.pad_right method_column (Method req))
    = String.length (Method req) `max` 7
  ∧ (∀ dump, ∃ rest,
       render_request Sprint URL_String range dump now req
       = Summary (summary_line Sprint URL_String now req) :: rest).
Proof.
  split_and!.
  - reflexivity.
  - unfold Str.pad_right, method_column.
    rewrite Str_length_app, Str_length_spaces. lia.
  - intros dump. by eexists.
Qed.

End RendererFacts.

(** C8, as the specification words it, fails: a request URI that is an
    absolute URI with its scheme in capitals still gets its [Host:] line. *)
Lemma host_line_for_uppercase_scheme :
  ¬ (∀ Sprint req,
       spec_absolute_URI (RequestURI req) = true → host_lines Sprint req = []).
Proof.
  intros Hall. specialize (Hall Sample.plain Sample.shouted eq_refl).
  vm_compute in Hall. discriminate Hall.
Qed.

Example host_line_shouted :
  spec_absolute_URI "HTTP://example.org/x" = true
  ∧ spec_absolute_URI "http://example.org/x" = true
  ∧ spec_absolute_URI "/index.html" = false
  ∧ spec_absolute_URI "example.org:8080" = false
  ∧ host_lines Sample.plain Sample.shouted
    = ["        Host:" +:+ tab +:+ "example.org" +:+ crlf].
Proof. repeat split; by vm_compute. Qed.

(** C9, as the specification words it, fails: with colours off, the line for
    a GET request starts with the method name, not with the four spaces that
    padding on the left would put there. *)
Lemma summary_line_not_left_padded :
  ¬ (∀ Sprint URL_String now req,
       summary_line Sprint URL_String now req
       = spec_summary_line Sprint URL_String now req).
Proof.
  intros Hall.
  specialize (Hall Sample.plain Sample.path_only Sample.noon (Sample.get "/index.html")).
  vm_compute in Hall. discriminate Hall.
Qed.

Example summary_line_GET :
  summary_line Sample.plain Sample.path_only Sample.noon (Sample.get "/index.html")
  = "GET     2019-03-07T12:05:09+01:00 - HTTP/1.1 /index.html" +:+ crlf.
Proof. vm_compute. reflexivity. Qed.

(** ** Start-up without a delegate *)

Section NoServe.

Variable Sprint : Color → string → string.
Variable URL_String : Url.t → string.
Variable range : Header → list (string * list string).
Variable FormFile : Request → string → string + (string * string).
Variable FileServer : string → Handler.

Lemma step_idle h fs s e o s' :
  Delegate h = None →
  step Sprint URL_String range h s e = Some (o, s') →
  idle fs s → idle fs s'.
Proof.
  intros Hd Hstep [Hfs Hcs]. unfold idle.
  destruct e as [r | i | i env | now]; simpl in Hstep.
  - injection Hstep as <- <-; simpl. split; [done|].
    apply Forall_app. split; [done|]. by repeat constructor.
  - destruct (conns s !! i) as [c|] eqn:Hc; [|done].
    destruct (conn_pc c); try done.
    destruct (chan_send _ _); [|done].
    injection Hstep as <- <-; simpl. split; [done|].
    apply Forall_insert; [done|]. simpl.
    exact (Forall_lookup_1 _ _ _ _ Hcs Hc).
  - destruct (conns s !! i) as [c|] eqn:Hc; [|done].
    destruct (conn_pc c); try done.
    injection Hstep as <- <-; simpl. unfold delegate. rewrite Hd. simpl.
    split; [done|]. apply Forall_insert; [done|]. simpl.
    split; [|done]. exact (proj1 (Forall_lookup_1 _ _ _ _ Hcs Hc)).
  - destruct (chan_recv _) as [[req rest]|]; [|done].
    by injection Hstep as <- <-.
Qed.

Lemma run_idle h fs evs : ∀ s os s',
  Delegate h = None →
  run Sprint URL_String range h s evs = Some (os, s') →
  idle fs s → idle fs s'.
Proof.
  induction evs as [|e evs IH]; intros s os s' Hd; simpl.
  - by intros [= <- <-].
  - destruct (step _ _ _ _ s e) as [[o s1]|] eqn:Hstep; [|done].
    destruct (run _ _ _ _ s1 evs) as [[os1 s2]|] eqn:Hrun; [|done].
    intros [= <- <-] Hidle. eapply IH; [done..|]. by eapply step_idle.
Qed.

(** C10. With the no-serve flag set, [main] installs no delegate, whatever
    the upload flag says: the handler is the same with the flag on and
    off.  Every request then gets the response no handler has written to
    (default status, no body), [ServeHTTP] does not panic, and the files
    stay as they were at start-up, under every schedule. *)
Theorem no_serve_ignores_upload f :
  dontServe f = true →
  Delegate (main_handler FormFile FileServer f) = None
  ∧ main_handler FormFile FileServer (with_enableUpload f true)
    = main_handler FormFile FileServer (with_enableUpload f false)
  ∧ (∀ env req fs w,
       delegate (main_handler FormFile FileServer f) env req fs w = Return fs w)
  ∧ (∀ fs evs os s,
       run Sprint URL_String range (main_handler FormFile FileServer f) (boot fs) evs
       = Some (os, s) →
       files s = fs
       ∧ ∀ c, c ∈ conns s →
           conn_resp c = untouched ∧ conn_panic c = None
           ∧ sent_status (conn_resp c) = StatusOK ∧ body (conn_resp c) = "").
Proof.
  intros Hns.
  assert (Delegate (main_handler FormFile FileServer f) = None) as Hd.
  { unfold main_handler. by rewrite Hns. }
  split_and!.
  - exact Hd.
  - unfold main_handler, with_enableUpload; simpl. by rewrite Hns.
  - intros env req fs w. unfold delegate. by rewrite Hd.
  - intros fs evs os s Hrun.
    assert (idle fs s) as [Hfs Hcs].
    { eapply run_idle; [exact Hd | exact Hrun | split; [done | constructor]]. }
    split; [done|]. intros c Hin.
    rewrite Forall_forall in Hcs. destruct (Hcs c Hin) as [-> ->]. done.
Qed.

End NoServe.

(** ** The switch of the upload sink *)

Section UploadSwitch.

Variable FormFile : Request → string → string + (string * string).

Lemma select_upload_other r :
  Method r ≠ MethodPut →
  Header_Get (Header_ r) "Content-Type" ≠ "multipart/form-data" →
  select_upload FormFile r = Forwarded.
Proof.
  intros Hm Hct. unfold select_upload.
  destruct (decide _) as [|_]; [done|].
  rewrite (bool_decide_eq_false_2 _ Hct). by rewrite andb_false_r.
Qed.

(** C2, what the code does.  A POST whose content type carries the
    boundary parameter, as every multipart form does, is not taken as a
    form upload: the sink hands it to the inner handler, whatever the form
    parser would have found in it. *)
Theorem form_post_is_forwarded dir handler env fs w :
  Header_Get (Header_ Sample.form_post) "Content-Type"
  = "multipart/form-data; boundary=XYZ"
  ∧ handleUploads FormFile dir handler env Sample.form_post fs w
    = handler env Sample.form_post fs w.
Proof.
  split; [by vm_compute|].
  unfold handleUploads. rewrite select_upload_other; [done| |].
  - by vm_compute.
  - by vm_compute.
Qed.

End UploadSwitch.

(** ** Paths *)

Section PathFacts.

Import Filepath.

Lemma append_cons x (a b : string) : String x a +:+ b = String x (a +:+ b).
Proof. reflexivity. Qed.

Lemma append_assoc (a b c : string) : (a +:+ b) +:+ c = a +:+ b +:+ c.
Proof. induction a as [|x a IH]; [done|]. rewrite !append_cons. by f_equal. Qed.

Lemma append_empty_r (a : string) : a +:+ "" = a.
Proof. induction a as [|x a IH]; [done|]. rewrite append_cons. by f_equal. Qed.

Lemma contains_char_app c (a b : string) :
  Str.contains_char c (a +:+ b) = Str.contains_char c a || Str.contains_char c b.
Proof.
  induction a as [|x a IH]; [done|]. rewrite append_cons. simpl.
  by destruct (Ascii.eqb x c).
Qed.

Lemma elements_not_nil s : elements s ≠ [].
Proof.
  destruct s as [|c s]; simpl; [done|].
  destruct (Ascii.eqb c Separator); [done|]. by destruct (elements s).
Qed.

Lemma elements_app_sep a b :
  elements (a +:+ "/" +:+ b) = elements a ++ elements b.
Proof.
  induction a as [|c a IH]; [done|]. rewrite append_cons. simpl.
  rewrite IH. destruct (Ascii.eqb c Separator); [done|].
  pose proof (elements_not_nil a). by destruct (elements a).
Qed.

Lemma elements_no_sep s : Forall no_sep (elements s).
Proof.
  induction s as [|c s IH]; simpl; [by repeat constructor|].
  destruct (Ascii.eqb c Separator) eqn:Hc; [by constructor|].
  destruct (elements s) as [|e es]; [by repeat constructor; unfold no_sep; simpl; rewrite Hc|].
  inversion_clear IH as [|?? He Hes]. constructor; [|done].
  unfold no_sep in *. simpl. by rewrite Hc.
Qed.

Lemma elements_single s : no_sep s → elements s = [s].
Proof.
  unfold no_sep. induction s as [|c s IH]; simpl; [done|].
  destruct (Ascii.eqb c Separator); [done|]. intros Hs. by rewrite IH.
Qed.

Lemma clean_step_named rooted out e :
  named e → clean_step rooted out e = e :: out.
Proof.
  intros (? & ? & ?). unfold clean_step.
  by repeat (destruct (decide _); [done|]).
Qed.

(** Elements other than [..] never remove anything: the names among them
    are pushed in order. *)
Lemma clean_fold_no_dotdot rooted es : ∀ out,
  ".." ∉ es →
  fold_left (clean_step rooted) es out
  = rev (filter (λ e, e ≠ "" ∧ e ≠ ".") es) ++ out.
Proof.
  induction es as [|e es IH]; intros out Hnd; simpl; [done|].
  apply not_elem_of_cons in Hnd as [Hne Hnd]. rewrite IH by done.
  rewrite filter_cons. unfold clean_step at 1.
  destruct (decide (e = "")) as [->|]; [by rewrite decide_False by (by intros [? _])|].
  destruct (decide (e = ".")) as [->|]; [by rewrite decide_False by (by intros [_ ?])|].
  destruct (decide (e = "..")); [done|].
  rewrite decide_True by done. simpl. by rewrite <- (assoc_L (++)).
Qed.

Lemma clean_step_tidy rooted out e :
  no_sep e → tidy rooted out → tidy rooted (clean_step rooted out e).
Proof.
  intros Hsep (names & k & -> & Hnames & Hk). unfold clean_step.
  destruct (decide (e = "")); [by exists names, k|].
  destruct (decide (e = ".")); [by exists names, k|].
  destruct (decide (e = "..")) as [->|].
  - destruct names as [|top names]; simpl.
    + destruct k as [|k]; simpl.
      * destruct rooted; [by exists [], 0|]. by exists [], 1.
      * exists [], (S (S k)). split_and!; [done|done|]. intros Hr. by apply Hk in Hr.
    + inversion_clear Hnames as [|?? [(? & ? & ?) ?] Hrest].
      rewrite decide_False by done. by exists names, k.
  - exists (e :: names), k. split_and!; [done| |done].
    constructor; [|done]. by repeat split.
Qed.

Lemma clean_fold_tidy rooted es : ∀ out,
  Forall no_sep es → tidy rooted out →
  tidy rooted (fold_left (clean_step rooted) es out).
Proof.
  induction es as [|e es IH]; intros out Hes Hout; simpl; [done|].
  inversion_clear Hes. apply IH; [done|]. by apply clean_step_tidy.
Qed.

Lemma tidy_nil rooted : tidy rooted [].
Proof. by exists [], 0. Qed.

Lemma clean_fold_names rooted names : ∀ out,
  Forall (λ e, named e ∧ no_sep e) names →
  fold_left (clean_step rooted) (rev names) out = names ++ out.
Proof.
  induction names as [|e names IH]; intros out Hn; simpl; [done|].
  inversion_clear Hn as [|?? [He _] Hrest].
  rewrite fold_left_app. simpl. rewrite IH by done.
  by rewrite clean_step_named.
Qed.

Lemma clean_fold_dotdots k :
  fold_left (clean_step false) (replicate k "..") [] = replicate k "..".
Proof.
  assert (∀ j, fold_left (clean_step false) (replicate k "..") (replicate j "..")
               = replicate (k + j) "..") as Hgen.
  { induction k as [|k IH]; intros j; [done|].
    replace (S k + j) with (k + S j) by lia.
    rewrite <- IH. cbn [replicate fold_left]. f_equal.
    unfold clean_step. simpl. by destruct j. }
  specialize (Hgen 0). by rewrite Nat.add_0_r in Hgen.
Qed.

Lemma rev_replicate {A} k (x : A) : rev (replicate k x) = replicate k x.
Proof.
  induction k as [|k IH]; simpl; [done|]. rewrite IH.
  clear IH. induction k as [|k IH]; simpl; [done|]. by rewrite IH.
Qed.

(** Cleaning the elements of a cleaned buffer gives the buffer back. *)
Lemma clean_fold_again rooted out :
  tidy rooted out → fold_left (clean_step rooted) (rev out) [] = out.
Proof.
  intros (names & k & -> & Hnames & Hk).
  rewrite rev_app_distr, rev_replicate, fold_left_app.
  destruct rooted.
  - rewrite (Hk eq_refl). simpl. by apply clean_fold_names.
  - rewrite clean_fold_dotdots. by apply clean_fold_names.
Qed.

Lemma elements_Join es :
  es ≠ [] → Forall no_sep es → elements (Str.Join es "/") = es.
Proof.
  induction es as [|e es IH]; intros Hne Hes; [done|].
  inversion_clear Hes as [|?? He Hrest].
  destruct es as [|e' es]; [by apply elements_single|].
  change (Str.Join (e :: e' :: es) "/") with (e +:+ "/" +:+ Str.Join (e' :: es) "/").
  rewrite elements_app_sep, elements_single by done.
  by rewrite IH.
Qed.

Lemma IsAbs_app a b : a ≠ "" → IsAbs (a +:+ b) = IsAbs a.
Proof. by destruct a. Qed.

Lemma IsAbs_no_sep e : no_sep e → IsAbs e = false.
Proof.
  unfold no_sep. destruct e as [|c e]; simpl; [done|].
  by destruct (Ascii.eqb c Separator).
Qed.

Lemma tidy_Forall rooted out :
  tidy rooted out → Forall (λ e, e ≠ "" ∧ no_sep e) out.
Proof.
  intros (names & k & -> & Hnames & _). apply Forall_app. split.
  - eapply Forall_impl; [done|]. intros e [(? & _) ?]. done.
  - apply Forall_replicate. by split.
Qed.

Lemma resolve_tidy s : tidy (IsAbs s) (fold_left (clean_step (IsAbs s)) (elements s) []).
Proof. apply clean_fold_tidy; [apply elements_no_sep | apply tidy_nil]. Qed.

Lemma resolve_render s : resolve (render (resolve s)) = resolve s.
Proof.
  unfold resolve at 2 3. unfold clean_elements.
  pose proof (resolve_tidy s) as Htidy.
  set (rooted := IsAbs s) in *.
  set (out := fold_left _ _ _) in *.
  pose proof (clean_fold_again _ _ Htidy) as Hagain.
  pose proof (tidy_Forall _ _ Htidy) as Hall.
  assert (Forall (λ e, e ≠ "" ∧ no_sep e) (rev out)) as Hrev.
  { apply Forall_rev. done. }
  assert (Forall no_sep (rev out)) as Hsep.
  { eapply Forall_impl; [done|]. by intros e [_ ?]. }
  destruct rooted; simpl.
  - unfold resolve, clean_elements. simpl. f_equal.
    destruct (rev out) as [|e es] eqn:Hout; [reflexivity|].
    rewrite elements_Join by done.
    change (clean_step true [] "") with (@nil string). by rewrite Hagain.
  - destruct (rev out) as [|e es] eqn:Hout; [reflexivity|].
    unfold resolve, clean_elements.
    assert (IsAbs (Str.Join (e :: es) "/") = false) as ->.
    { inversion_clear Hrev as [|?? [Hne He] _].
      destruct es as [|e' es]; [exact (IsAbs_no_sep _ He)|].
      change (Str.Join (e :: e' :: es) "/") with (e +:+ "/" +:+ Str.Join (e' :: es) "/").
      rewrite IsAbs_app by done. exact (IsAbs_no_sep _ He). }
    rewrite elements_Join by done. by rewrite Hagain, Hout.
Qed.

(** [Clean] does not change the file a path names. *)
Lemma resolve_Clean s : resolve (Clean s) = resolve s.
Proof.
  unfold Clean. destruct (decide (s = "")) as [->|]; [done|]. apply resolve_render.
Qed.

Lemma resolve_app_sep a b :
  a ≠ "" →
  resolve (a +:+ "/" +:+ b)
  = (IsAbs a, rev (fold_left (clean_step (IsAbs a)) (elements b)
                     (fold_left (clean_step (IsAbs a)) (elements a) []))).
Proof.
  intros Ha. unfold resolve, clean_elements.
  by rewrite IsAbs_app, elements_app_sep, fold_left_app.
Qed.

Lemma resolve_Join dir filename :
  dir ≠ "" →
  resolve (Join dir filename)
  = (IsAbs dir, rev (fold_left (clean_step (IsAbs dir)) (elements filename)
                       (fold_left (clean_step (IsAbs dir)) (elements dir) []))).
Proof.
  intros Hd. unfold Join. rewrite decide_False by done.
  rewrite resolve_Clean. by apply resolve_app_sep.
Qed.

(** A file name without [..] elements stays below the directory. *)
Lemma Join_no_dotdot dir filename :
  dir ≠ "" → ".." ∉ elements filename →
  resolve (Join dir filename)
  = ((resolve dir).1,
     (resolve dir).2 ++ filter (λ e, e ≠ "" ∧ e ≠ ".") (elements filename)).
Proof.
  intros Hd Hnd. rewrite resolve_Join by done.
  rewrite clean_fold_no_dotdot by done. simpl. unfold clean_elements.
  by rewrite rev_app_distr, rev_involutive.
Qed.

(** [within], said with the elements that follow the directory. *)
Lemma within_spec d p :
  within d p ↔ d.1 = p.1 ∧ ∃ rest, p.2 = d.2 ++ rest ∧ ".." ∉ rest.
Proof.
  unfold within. split.
  - intros (Hr & Ht & Hd). split; [done|]. exists (drop (length d.2) p.2).
    split; [|done]. by rewrite <- Ht at 1; rewrite take_drop.
  - intros (Hr & rest & -> & Hd).
    by rewrite take_app_length, drop_app_length.
Qed.

Lemma within_below (d : resolved) (rest : list string) :
  ".." ∉ rest → within d (d.1, d.2 ++ rest).
Proof. intros Hd. apply within_spec. split; [done|]. by exists rest. Qed.

Lemma not_dotdot_filter (es : list string) :
  ".." ∉ es → ".." ∉ filter (λ e, e ≠ "" ∧ e ≠ ".") es.
Proof. intros Hn Hin. apply list_elem_of_filter in Hin as [_ Hin]. done. Qed.

End PathFacts.

(** ** Temporary files *)

Section TempFacts.

Import Filepath.

Lemma string_of_uint_no_sep u : no_sep (NilEmpty.string_of_uint u).
Proof. unfold no_sep. induction u; simpl; done. Qed.

Lemma temp_name_no_sep n : no_sep (OS.temp_name n).
Proof.
  unfold no_sep, OS.temp_name. rewrite contains_char_app.
  change (Str.contains_char Separator "lama-upload-") with false.
  apply string_of_uint_no_sep.
Qed.

Lemma temp_name_named n : named (OS.temp_name n).
Proof. unfold OS.temp_name. by repeat split. Qed.

Lemma temp_name_not_foo n : OS.temp_name n ≠ "foo.txt".
Proof. unfold OS.temp_name. done. Qed.

Lemma ends_with_sep_inv dir :
  OS.ends_with_sep dir = true → ∃ d, dir = d +:+ "/".
Proof.
  induction dir as [|c rest IH]; [done|].
  destruct rest as [|c' rest].
  - simpl. intros Hc. apply Ascii.eqb_eq in Hc as ->. by exists "".
  - intros Hrest. destruct IH as [d ->]; [exact Hrest|]. by exists (String c d).
Qed.

Lemma joinPath_app dir p q : OS.joinPath dir p +:+ q = OS.joinPath dir (p +:+ q).
Proof.
  unfold OS.joinPath. destruct (OS.ends_with_sep dir); by rewrite !append_assoc.
Qed.

(** A name joined to a directory resolves to the directory's elements
    followed by the name. *)
Lemma resolve_joinPath dir t :
  dir ≠ "" → named t → no_sep t →
  resolve (OS.joinPath dir t) = ((resolve dir).1, (resolve dir).2 ++ [t]).
Proof.
  intros Hd Hn Hs. unfold OS.joinPath.
  destruct (OS.ends_with_sep dir) eqn:Hend.
  - apply ends_with_sep_inv in Hend as [d ->].
    rewrite append_assoc.
    replace (resolve (d +:+ "/")) with (resolve (d +:+ "/" +:+ ""))
      by by rewrite <- append_assoc, append_empty_r.
    unfold resolve, clean_elements. rewrite !elements_app_sep, !fold_left_app.
    rewrite (elements_single t) by done. simpl.
    rewrite clean_step_named by done. simpl. by destruct d.
  - rewrite resolve_app_sep by done. rewrite (elements_single t) by done.
    simpl. by rewrite clean_step_named.
Qed.

Lemma resolve_joinPath_last dir t :
  named t → no_sep t → ∃ p, resolve (OS.joinPath dir t) = (p.1, p.2 ++ [t]).
Proof.
  intros Hn Hs. destruct (decide (dir = "")) as [->|Hd].
  - exists (true, []). unfold OS.joinPath. simpl.
    change ("" +:+ "/" +:+ t) with (String "/" t).
    unfold resolve, clean_elements. simpl.
    rewrite (elements_single t) by done. simpl.
    by rewrite clean_step_named.
  - exists (resolve dir). by apply resolve_joinPath.
Qed.

Lemma CreateTemp_loop_inr env fs prefix suffix attempts : ∀ try tmp fs1,
  OS.CreateTemp_loop env fs prefix suffix attempts try = inr (tmp, fs1) →
  ∃ k, tmp = prefix +:+ Str.Uitoa (OS.random env k) +:+ suffix
       ∧ fs !! resolve tmp = None
       ∧ fs1 = <[resolve tmp := ""]> fs.
Proof.
  induction attempts as [|attempts IH]; intros try tmp fs1; simpl; [done|].
  destruct (OS.exists_ fs _) eqn:Hex; [by apply IH|].
  destruct (OS.open_err env); [done|].
  intros [= <- <-]. exists try. split_and!; [done| |done].
  unfold OS.exists_ in Hex. apply bool_decide_eq_false in Hex.
  by apply eq_None_not_Some.
Qed.

(** What a successful [CreateTemp] in the sink has done: the file it made
    did not exist before, is empty, and is named [lama-upload-] and a
    number, inside [dir] (or the temporary directory for an empty [dir]). *)
Lemma CreateTemp_inr env fs dir tmp fs1 :
  OS.CreateTemp env fs dir "lama-upload-*" = inr (tmp, fs1) →
  ∃ k, tmp = OS.joinPath (if decide (dir = "") then OS.TempDir env else dir)
                         (OS.temp_name (OS.random env k))
       ∧ fs !! resolve tmp = None
       ∧ fs1 = <[resolve tmp := ""]> fs.
Proof.
  unfold OS.CreateTemp.
  change (OS.prefixAndSuffix "lama-upload-*") with
    (inr ("lama-upload-", "") : string + (string * string)).
  intros Hloop. apply CreateTemp_loop_inr in Hloop as (k & -> & Hfresh & ->).
  exists k. split_and!; [|done..].
  by rewrite append_empty_r, joinPath_app.
Qed.

(** [CreateTemp] takes the first name it draws when that name is free and
    the open succeeds. *)
Lemma CreateTemp_first (env : OS.Env) (fs : OS.FS) (dir : string) :
  dir ≠ "" → OS.open_err env = None →
  fs !! resolve (OS.joinPath dir (OS.temp_name (OS.random env 0))) = None →
  OS.CreateTemp env fs dir "lama-upload-*"
  = inr (OS.joinPath dir (OS.temp_name (OS.random env 0)),
         <[resolve (OS.joinPath dir (OS.temp_name (OS.random env 0))) := ""]> fs).
Proof.
  intros Hd Hopen Hfree. unfold OS.CreateTemp.
  change (OS.prefixAndSuffix "lama-upload-*") with
    (inr ("lama-upload-", "") : string + (string * string)).
  rewrite decide_False by done.
  change OS.max_attempts with (S (99 + 99 * 100)).
  cbn [OS.CreateTemp_loop].
  rewrite append_empty_r, joinPath_app. fold (OS.temp_name (OS.random env 0)).
  unfold OS.exists_. rewrite Hfree, Hopen.
  rewrite bool_decide_eq_false_2; [done|]. by intros [? [=]].
Qed.

Lemma CreateTemp_last env fs dir tmp fs1 :
  OS.CreateTemp env fs dir "lama-upload-*" = inr (tmp, fs1) →
  ∃ p n, resolve tmp = (p.1, p.2 ++ [OS.temp_name n]).
Proof.
  intros (k & -> & _)%CreateTemp_inr.
  destruct (resolve_joinPath_last
              (if decide (dir = "") then OS.TempDir env else dir)
              (OS.temp_name (OS.random env k))) as [p Hp];
    [apply temp_name_named | apply temp_name_no_sep |].
  by exists p, (OS.random env k).
Qed.

Lemma delete_fresh_insert2 (fs : OS.FS) k x y :
  fs !! k = None → delete k (<[k := x]> (<[k := y]> fs)) = fs.
Proof.
  intros Hk. apply map_eq. intros j.
  destruct (decide (j = k)) as [->|]; by simplify_map_eq.
Qed.

End TempFacts.

(** ** The upload sink *)

Section UploadFacts.

Import Filepath.

Variable FormFile : Request → string → string + (string * string).

Local Abbreviation InternalError w msg := (Error w msg StatusInternalServerError).

Lemma store_create_fails dir env filename filebody fs w err :
  OS.CreateTemp env fs dir "lama-upload-*" = inl err →
  store_upload dir env filename filebody fs w = Return fs (InternalError w err).
Proof. intros H. unfold store_upload. by rewrite H. Qed.

Lemma store_copy_fails dir env filename filebody fs w tmp fs1 n err :
  OS.CreateTemp env fs dir "lama-upload-*" = inr (tmp, fs1) →
  OS.copy_err env = Some (n, err) →
  store_upload dir env filename filebody fs w
  = Return fs (InternalError w ("failed to write file body: " +:+ err)).
Proof.
  intros Hc Hcopy. unfold store_upload, OS.Copy, OS.Remove. rewrite Hc, Hcopy.
  apply CreateTemp_inr in Hc as (_ & _ & Hfresh & ->).
  by rewrite delete_fresh_insert2.
Qed.

Lemma store_rename_fails dir env filename filebody fs w tmp fs1 err :
  OS.CreateTemp env fs dir "lama-upload-*" = inr (tmp, fs1) →
  OS.copy_err env = None → OS.rename_err env = Some err →
  store_upload dir env filename filebody fs w
  = Return fs (InternalError w ("failed to rename file: " +:+ err)).
Proof.
  intros Hc Hcopy Hren.
  unfold store_upload, OS.Copy, OS.Rename, OS.Remove. rewrite Hc, Hcopy, Hren.
  apply CreateTemp_inr in Hc as (_ & _ & Hfresh & ->).
  by rewrite delete_fresh_insert2.
Qed.

Lemma store_succeeds dir env filename filebody fs w tmp fs1 :
  OS.CreateTemp env fs dir "lama-upload-*" = inr (tmp, fs1) →
  OS.copy_err env = None → OS.rename_err env = None →
  store_upload dir env filename filebody fs w
  = Return (if decide (resolve tmp = resolve (Join dir filename)) then fs
            else <[resolve (Join dir filename) := filebody]> fs) w.
Proof.
  intros Hc Hcopy Hren.
  unfold store_upload, OS.Copy, OS.Rename, OS.Remove. rewrite Hc, Hcopy, Hren.
  apply CreateTemp_inr in Hc as (_ & _ & Hfresh & ->).
  rewrite lookup_insert_eq.
  destruct (decide (resolve tmp = resolve (Join dir filename))) as [Heq|Hne].
  - by rewrite delete_fresh_insert2.
  - rewrite delete_fresh_insert2 by done. f_equal.
    apply map_eq. intros j.
    destruct (decide (j = resolve (Join dir filename))) as [->|Hj].
    + by rewrite lookup_delete_ne, !lookup_insert_eq.
    + rewrite lookup_insert_ne by done.
      destruct (decide (j = resolve tmp)) as [->|Hj'].
      * by rewrite lookup_delete_eq.
      * by rewrite lookup_delete_ne, lookup_insert_ne.
Qed.

(** Whatever happens, the sink leaves the files as they were or with the
    one file at the joined path added or replaced. *)
Lemma store_upload_files dir env filename filebody fs w :
  result_fs (store_upload dir env filename filebody fs w) = fs
  ∨ result_fs (store_upload dir env filename filebody fs w)
    = <[resolve (Join dir filename) := filebody]> fs.
Proof.
  destruct (OS.CreateTemp env fs dir "lama-upload-*") as [err|[tmp fs1]] eqn:Hc.
  { left. by erewrite store_create_fails. }
  destruct (OS.copy_err env) as [[n err]|] eqn:Hcopy.
  { left. by erewrite store_copy_fails. }
  destruct (OS.rename_err env) as [err|] eqn:Hren.
  { left. by erewrite store_rename_fails. }
  erewrite store_succeeds by done. simpl.
  destruct (decide _); [by left | by right].
Qed.

Lemma handleUploads_Upload dir handler env r filename filebody fs w :
  select_upload FormFile r = Upload filename filebody →
  handleUploads FormFile dir handler env r fs w
  = store_upload dir env filename filebody fs w.
Proof. intros H. unfold handleUploads. by rewrite H. Qed.

Lemma select_upload_PUT r u :
  Method r = MethodPut → URL r = Some u →
  select_upload FormFile r = Upload (Url.Path u) (Body r).
Proof.
  intros Hm Hu. unfold select_upload. rewrite decide_True by done. by rewrite Hu.
Qed.

Lemma resolve_Join_foo dir :
  resolve (Join dir "/foo.txt") = resolve (dir +:+ "/foo.txt")
  ∧ ∃ p, resolve (Join dir "/foo.txt") = (p.1, p.2 ++ ["foo.txt"]).
Proof.
  destruct (decide (dir = "")) as [->|Hd].
  - split; [reflexivity|]. by exists (true, []).
  - rewrite Join_no_dotdot; [|done|by intros [[=]|[[=]|[]%elem_of_nil]%elem_of_cons]%elem_of_cons].
    change (dir +:+ "/foo.txt") with (dir +:+ "/" +:+ "foo.txt").
    rewrite resolve_app_sep by done. split.
    + reflexivity.
    + by exists (resolve dir).
Qed.

(** C1, as the code has it.  The sink renames the temporary file to
    [Join(dir, filename)] and has no check of its own on the file name.
    For a non-empty directory and a file name none of whose elements is
    [..], that path lies inside the directory (it is the directory's path
    followed by elements none of which is [..]), and no file outside the
    directory is added, changed or removed by the upload. *)
Theorem upload_confined_without_dotdot dir handler env r filename filebody fs w :
  select_upload FormFile r = Upload filename filebody →
  dir ≠ "" → ".." ∉ elements filename →
  confined dir (Join dir filename)
  ∧ (∀ k, result_fs (handleUploads FormFile dir handler env r fs w) !! k ≠ fs !! k →
          k = resolve (Join dir filename) ∧ within (resolve dir) k).
Proof.
  intros Hsel Hd Hnd.
  assert (confined dir (Join dir filename)) as Hconf.
  { unfold confined. rewrite Join_no_dotdot by done.
    by apply within_below, not_dotdot_filter. }
  split; [done|]. intros k Hk.
  rewrite (handleUploads_Upload _ _ _ _ _ _ _ _ Hsel) in Hk.
  destruct (store_upload_files dir env filename filebody fs w) as [Hfs|Hfs];
    rewrite Hfs in Hk; [done|].
  destruct (decide (k = resolve (Join dir filename))) as [->|Hne]; [done|].
  by rewrite lookup_insert_ne in Hk.
Qed.

(** C3. For an upload whose temporary file has been created: when the
    copy fails the sink answers with status 500, and afterwards the
    temporary file is gone and every path, the destination among them,
    holds what it held before the request; when the rename fails the
    answer is 500 as well and the temporary file is gone. *)
Theorem failed_upload_cleans_up dir handler env r filename filebody fs w tmp fs1 :
  select_upload FormFile r = Upload filename filebody →
  OS.CreateTemp env fs dir "lama-upload-*" = inr (tmp, fs1) →
  status w = None →
  fs1 !! resolve tmp = Some ""
  ∧ (∀ n err, OS.copy_err env = Some (n, err) →
       ∃ fs' w', handleUploads FormFile dir handler env r fs w = Return fs' w'
         ∧ sent_status w' = StatusInternalServerError
         ∧ fs' !! resolve tmp = None
         ∧ fs' !! resolve (Join dir filename) = fs !! resolve (Join dir filename)
         ∧ fs' = fs)
  ∧ (∀ err, OS.copy_err env = None → OS.rename_err env = Some err →
       ∃ fs' w', handleUploads FormFile dir handler env r fs w = Return fs' w'
         ∧ sent_status w' = StatusInternalServerError
         ∧ fs' !! resolve tmp = None
         ∧ fs' = fs).
Proof.
  intros Hsel Hc Hw.
  pose proof (CreateTemp_inr _ _ _ _ _ Hc) as (_ & _ & Hfresh & ->).
  rewrite (handleUploads_Upload _ _ _ _ _ _ _ _ Hsel).
  split_and!.
  - apply lookup_insert_eq.
  - intros n err Hcopy. erewrite store_copy_fails by done.
    eexists _, _. split; [reflexivity|].
    split_and!; [|done..]. unfold sent_status. simpl. by rewrite Hw.
  - intros err Hcopy Hren. erewrite store_rename_fails by done.
    eexists _, _. split; [reflexivity|].
    split_and!; [|done..]. unfold sent_status. simpl. by rewrite Hw.
Qed.

(** X15. For a PUT the file name is the path of the URL and the content is
    the body.  When the system calls succeed, the sink returns without
    writing to the response and the files are those from before with the
    body at the joined path, provided that path is not the temporary file
    itself.  For the path [/foo.txt] and the body [hello] that proviso
    always holds: the only change is the file [foo.txt] in the directory,
    holding [hello]; the temporary file is not left behind. *)
Theorem put_stores_body dir handler env r u fs w tmp fs1 :
  Method r = MethodPut → URL r = Some u →
  OS.CreateTemp env fs dir "lama-upload-*" = inr (tmp, fs1) →
  OS.copy_err env = None → OS.rename_err env = None →
  select_upload FormFile r = Upload (Url.Path u) (Body r)
  ∧ (resolve tmp ≠ resolve (Join dir (Url.Path u)) →
       handleUploads FormFile dir handler env r fs w
       = Return (<[resolve (Join dir (Url.Path u)) := Body r]> fs) w)
  ∧ (Url.Path u = "/foo.txt" → Body r = "hello" →
       ∃ fs', handleUploads FormFile dir handler env r fs w = Return fs' w
         ∧ fs' = <[resolve (dir +:+ "/foo.txt") := "hello"]> fs
         ∧ fs' !! resolve (dir +:+ "/foo.txt") = Some "hello"
         ∧ fs' !! resolve tmp = None
         ∧ ∀ k, k ≠ resolve (dir +:+ "/foo.txt") → fs' !! k = fs !! k).
Proof.
  intros Hm Hu Hc Hcopy Hren.
  pose proof (select_upload_PUT _ _ Hm Hu) as Hsel.
  rewrite (handleUploads_Upload _ _ _ _ _ _ _ _ Hsel).
  rewrite (store_succeeds _ _ _ _ _ _ _ _ Hc Hcopy Hren).
  split_and!; [done| |].
  - intros Hne. by rewrite decide_False.
  - intros -> ->.
    destruct (resolve_Join_foo dir) as [Hfoo [p Hp]].
    destruct (CreateTemp_last _ _ _ _ _ Hc) as (q & n & Hq).
    pose proof (CreateTemp_inr _ _ _ _ _ Hc) as (_ & _ & Hfresh & _).
    assert (resolve tmp ≠ resolve (Join dir "/foo.txt")) as Hne.
    { rewrite Hq, Hp. intros [= _ Heq].
      apply app_inj_tail in Heq as [_ Heq]. by apply temp_name_not_foo in Heq. }
    rewrite decide_False by done. rewrite Hfoo in *.
    eexists. split; [reflexivity|]. split_and!; [done| | |].
    + apply lookup_insert_eq.
    + by rewrite lookup_insert_ne.
    + intros k Hk. by rewrite lookup_insert_ne.
Qed.

End UploadFacts.

(** C1, as the specification words it, fails: a PUT whose path climbs out
    with [..] elements makes the sink rename the upload to a path that is not
    inside the directory, and the file is there afterwards. *)
Lemma traversal_escapes_directory :
  Filepath.Join "/srv/www" "/../../etc/passed" = "/etc/passed"
  ∧ ¬ Filepath.confined "/srv/www" (Filepath.Join "/srv/www" "/../../etc/passed")
  ∧ result_fs (handleUploads Sample.found_bar "/srv/www" Sample.not_found Sample.calm
                 (Sample.put "/../../etc/passed" "root::0:0") ∅ untouched)
    !! Filepath.resolve "/etc/passed" = Some "root::0:0".
Proof.
  split_and!.
  - by vm_compute.
  - apply (bool_decide_eq_false_1 _). by vm_compute.
  - by vm_compute.
Qed.

(** ** The theorems at sample inputs *)

Lemma observer_fifo_overtaking :
  enqueued (Sample.after Sample.overtaking).1 = [Sample.get "/b"; Sample.get "/a"]
  ∧ (dequeued (Sample.after Sample.overtaking).1).*1
    ++ Logger (Sample.after Sample.overtaking).2
    = enqueued (Sample.after Sample.overtaking).1.
Proof.
  split; [by vm_compute|].
  refine (proj1 (observer_fifo Sample.plain Sample.path_only Sample.in_key_order
                   Sample.no_delegate ∅ Sample.overtaking _ _ _)).
  by vm_compute.
Defined.

Lemma logger_backpressure_eleven :
  length (Logger (Sample.after Sample.eleven_arrivals).2) = 10
  ∧ conns (Sample.after Sample.eleven_arrivals).2 !! 10
    = Some (Sample.waiting (Sample.get "/10"))
  ∧ step Sample.plain Sample.path_only Sample.in_key_order Sample.no_delegate
      (Sample.after Sample.eleven_arrivals).2 (Send 10) = None.
Proof.
  assert (length (Logger (Sample.after Sample.eleven_arrivals).2) = 10) as Hfull
    by by vm_compute.
  split; [exact Hfull|]. split; [by vm_compute|].
  pose proof (logger_backpressure Sample.plain Sample.path_only Sample.in_key_order
                Sample.no_delegate ∅ Sample.eleven_arrivals
                (Sample.after Sample.eleven_arrivals).1
                (Sample.after Sample.eleven_arrivals).2) as Hthm.
  destruct Hthm as (_ & _ & Hblocks); [by vm_compute|].
  destruct (Hblocks Hfull) as (Hsend & _). apply Hsend.
Defined.

Lemma dispatcher_first_request :
  step Sample.plain Sample.path_only Sample.in_key_order Sample.no_delegate
    (Sample.after [Accept (Sample.get "/a")]).2 (Forward 0 Sample.calm) = None.
Proof.
  refine (proj1 (dispatcher_enqueue_then_forward Sample.plain Sample.path_only
                   Sample.in_key_order Sample.no_delegate
                   (Sample.after [Accept (Sample.get "/a")]).2 0
                   (Sample.waiting (Sample.get "/a")) Sample.calm _ _ _)).
  - by vm_compute.
  - reflexivity.
  - vm_compute. lia.
Defined.

Lemma host_line_samples :
  host_lines Sample.plain
    (Sample.request "GET" "http://example.org/x" "example.org" (Sample.at_path "/x") ∅ "")
  = []
  ∧ host_lines Sample.plain (Sample.get "/index.html")
    = ["        " +:+ Sample.plain fgHeader "Host:" +:+ String "009" ""
       +:+ "localhost:8080" +:+ String "013" (String "010" "")]
  ∧ host_lines Sample.plain
      (Sample.request "GET" "/x" ""
         (Some {| Url.Path := "/x"; Url.Host := "example.org" |}) ∅ "")
    = ["        " +:+ Sample.plain fgHeader "Host:" +:+ String "009" ""
       +:+ "example.org" +:+ String "013" (String "010" "")]
  ∧ host_lines Sample.plain (Sample.request "GET" "/x" "" (Sample.at_path "/x") ∅ "")
    = [].
Proof.
  pose proof (host_line_rule Sample.plain Sample.path_only Sample.in_key_order
                Sample.noon) as Hrule.
  split_and!.
  - destruct (Hrule (Sample.request "GET" "http://example.org/x" "example.org"
                       (Sample.at_path "/x") ∅ "")) as (_ & Habs & _).
    apply Habs. left. reflexivity.
  - destruct (Hrule (Sample.get "/index.html")) as (_ & _ & Hhost & _).
    apply Hhost; [reflexivity | reflexivity | discriminate].
  - destruct (Hrule (Sample.request "GET" "/x" ""
                       (Some {| Url.Path := "/x"; Url.Host := "example.org" |}) ∅ ""))
      as (_ & _ & _ & Hurl & _).
    apply (Hurl {| Url.Path := "/x"; Url.Host := "example.org" |});
      [reflexivity | reflexivity | reflexivity | reflexivity | discriminate].
  - destruct (Hrule (Sample.request "GET" "/x" "" (Sample.at_path "/x") ∅ ""))
      as (_ & _ & _ & _ & Hnone).
    apply Hnone; [reflexivity|]. intros u [= <-]. reflexivity.
Defined.

Lemma no_serve_with_upload_flag :
  Delegate (main_handler Sample.found_bar Sample.file_server (Sample.flags true true))
  = None.
Proof.
  refine (proj1 (no_serve_ignores_upload Sample.plain Sample.path_only
                   Sample.in_key_order Sample.found_bar Sample.file_server
                   (Sample.flags true true) _)).
  reflexivity.
Defined.

Lemma upload_confined_foo :
  Filepath.confined "/srv/www" (Filepath.Join "/srv/www" "/foo.txt").
Proof.
  refine (proj1 (upload_confined_without_dotdot Sample.found_bar "/srv/www"
                   Sample.not_found Sample.calm (Sample.put "/foo.txt" "hello")
                   "/foo.txt" "hello" ∅ untouched _ _ _)).
  - reflexivity.
  - discriminate.
  - by intros [[=]|[[=]|[]%elem_of_nil]%elem_of_cons]%elem_of_cons.
Defined.

Lemma failed_upload_short_write :
  ∃ fs' w',
    handleUploads Sample.found_bar "/srv/www" Sample.not_found Sample.short_write
      (Sample.put "/foo.txt" "hello") ∅ untouched = Return fs' w'
    ∧ sent_status w' = StatusInternalServerError
    ∧ fs' !! Filepath.resolve Sample.first_temp = None
    ∧ fs' !! Filepath.resolve (Filepath.Join "/srv/www" "/foo.txt")
      = (∅ : OS.FS) !! Filepath.resolve (Filepath.Join "/srv/www" "/foo.txt")
    ∧ fs' = ∅.
Proof.
  assert (OS.CreateTemp Sample.short_write ∅ "/srv/www" "lama-upload-*"
          = inr (Sample.first_temp, Sample.with_first_temp)) as Htemp.
  { apply (CreateTemp_first Sample.short_write ∅ "/srv/www");
      [discriminate | reflexivity | apply lookup_empty]. }
  destruct (failed_upload_cleans_up Sample.found_bar "/srv/www" Sample.not_found
              Sample.short_write (Sample.put "/foo.txt" "hello") "/foo.txt" "hello"
              ∅ untouched Sample.first_temp Sample.with_first_temp
              eq_refl Htemp eq_refl) as (_ & Hcopy & _).
  exact (Hcopy 2 "no space left on device" eq_refl).
Defined.

Lemma put_foo_hello :
  ∃ fs',
    handleUploads Sample.found_bar "/srv/www" Sample.not_found Sample.calm
      (Sample.put "/foo.txt" "hello") ∅ untouched = Return fs' untouched
    ∧ fs' = <[Filepath.resolve ("/srv/www" +:+ "/foo.txt") := "hello"]> ∅
    ∧ fs' !! Filepath.resolve ("/srv/www" +:+ "/foo.txt") = Some "hello"
    ∧ fs' !! Filepath.resolve Sample.first_temp = None
    ∧ ∀ k, k ≠ Filepath.resolve ("/srv/www" +:+ "/foo.txt") →
           fs' !! k = (∅ : OS.FS) !! k.
Proof.
  assert (OS.CreateTemp Sample.calm ∅ "/srv/www" "lama-upload-*"
          = inr (Sample.first_temp, Sample.with_first_temp)) as Htemp.
  { apply (CreateTemp_first Sample.calm ∅ "/srv/www");
      [discriminate | reflexivity | apply lookup_empty]. }
  destruct (put_stores_body Sample.found_bar "/srv/www" Sample.not_found Sample.calm
              (Sample.put "/foo.txt" "hello") {| Url.Path := "/foo.txt"; Url.Host := "" |}
              ∅ untouched Sample.first_temp Sample.with_first_temp
              eq_refl eq_refl Htemp eq_refl eq_refl) as (_ & _ & Hfoo).
  exact (Hfoo eq_refl eq_refl).
Defined.

(** ** Worked values *)

Example Clean_values :
  Filepath.Clean "a//b/./c/.." = "a/b"
  ∧ Filepath.Clean "/../a" = "/a"
  ∧ Filepath.Clean "../../x/../y" = "../../y"
  ∧ Filepath.Clean "" = "."
  ∧ Filepath.Clean "a/.." = "."
  ∧ Filepath.Clean "/" = "/".
Proof. repeat split; by vm_compute. Qed.

Example Join_values :
  Filepath.Join "/srv/www" "/foo.txt" = "/srv/www/foo.txt"
  ∧ Filepath.Join "." "/foo.txt" = "foo.txt"
  ∧ Filepath.Join "/srv/www" "bar.txt" = "/srv/www/bar.txt"
  ∧ Filepath.Join "" "/foo.txt" = "/foo.txt"
  ∧ Filepath.Join "" "" = "".
Proof. repeat split; by vm_compute. Qed.

Example first_temp_value : Sample.first_temp = "/srv/www/lama-upload-1234567".
Proof. by vm_compute. Qed.

Example RFC3339_values :
  Time.RFC3339 Sample.noon = "2019-03-07T12:05:09+01:00"
  ∧ Time.RFC3339 {| Time.year := 2024; Time.month := 12; Time.day := 31;
                    Time.hour := 23; Time.minute := 59; Time.second := 59;
                    Time.offset := 0 |} = "2024-12-31T23:59:59Z"
  ∧ Time.zone (-19800) = "-05:30".
Proof. repeat split; by vm_compute. Qed.

(** The rename is refused: status 500 with the error text, nothing is left. *)
Example rename_refused :
  handleUploads Sample.found_bar "/srv/www" Sample.not_found Sample.no_rename
    (Sample.put "/foo.txt" "hello") ∅ untouched
  = Return ∅ {| status := Some 500;
                body := "failed to rename file: permission denied" +:+ String "010" "" |}.
Proof.
  rewrite (handleUploads_Upload _ _ _ _ _ "/foo.txt" "hello") by done.
  erewrite store_rename_fails;
    [done
    | apply (CreateTemp_first Sample.no_rename ∅ "/srv/www");
      [discriminate | reflexivity | apply lookup_empty]
    | done | done].
Qed.

(** C4, where the code departs from it.  A PUT whose path is the name the
    temporary file gets, here [/lama-upload-1234567] when [CreateTemp] draws
    1234567.  Creating the file, the copy and the rename all succeed and the
    response is left untouched (status 200), but the rename is onto the
    temporary file itself and the deferred remove then deletes it: the body
    is stored nowhere, neither at the request path nor anywhere else. *)
Theorem put_onto_temp_name_is_lost :
  OS.CreateTemp Sample.calm ∅ "/srv/www" "lama-upload-*"
  = inr (Sample.first_temp, Sample.with_first_temp)
  ∧ Sample.first_temp = "/srv/www/lama-upload-1234567"
  ∧ Filepath.Join "/srv/www" "/lama-upload-1234567" = "/srv/www/lama-upload-1234567"
  ∧ OS.copy_err Sample.calm = None
  ∧ OS.rename_err Sample.calm = None
  ∧ handleUploads Sample.found_bar "/srv/www" Sample.not_found Sample.calm
      (Sample.put "/lama-upload-1234567" "hello") ∅ untouched
    = Return ∅ untouched
  ∧ sent_status untouched = StatusOK.
Proof.
  assert (OS.CreateTemp Sample.calm ∅ "/srv/www" "lama-upload-*"
          = inr (Sample.first_temp, Sample.with_first_temp)) as Htemp.
  { apply (CreateTemp_first Sample.calm ∅ "/srv/www");
      [discriminate | reflexivity | apply lookup_empty]. }
  split_and!; [exact Htemp | by vm_compute | by vm_compute | done | done | | done].
  rewrite (handleUploads_Upload _ _ _ _ _ "/lama-upload-1234567" "hello") by done.
  erewrite store_succeeds; [| exact Htemp | done | done].
  rewrite decide_True; [done|]. by vm_compute.
Qed.

(** With the default directory the same path climbs out as well. *)
Example traversal_escapes_default_directory :
  Filepath.resolve (Filepath.Join "." "/../../etc/passed")
  = (false, [".."; ".."; "etc"; "passed"])
  ∧ ¬ Filepath.confined "." (Filepath.Join "." "/../../etc/passed")
  ∧ Filepath.confined "." (Filepath.Join "." "/docs/foo.txt").
Proof.
  split_and!.
  - by vm_compute.
  - apply (bool_decide_eq_false_1 _). by vm_compute.
  - apply (bool_decide_unpack _). by vm_compute.
Qed.

(** * Further properties of the code *)

(** ** The renderer's output as a whole *)

Section OutputFacts.

Variable Sprint : Color → string → string.
Variable URL_String : Url.t → string.
Variable range : Header → list (string * list string).
Variable h : debugHandler.

Local Abbreviation hstep := (step Sprint URL_String range h).
Local Abbreviation hrun := (run Sprint URL_String range h).
Local Abbreviation hblocks := (blocks Sprint URL_String range (DumpRequest h)).

Lemma blocks_app dump dq1 dq2 :
  blocks Sprint URL_String range dump (dq1 ++ dq2)
  = blocks Sprint URL_String range dump dq1 ++ blocks Sprint URL_String range dump dq2.
Proof. unfold blocks. by rewrite fmap_app, concat_app. Qed.

Lemma step_blocks s e o s' :
  hstep s e = Some (o, s') → Stdout s' = Stdout s ++ hblocks (dequeued [o]).
Proof.
  destruct e as [r | i | i env | now]; simpl.
  - intros [= <- <-]; simpl. by rewrite app_nil_r.
  - destruct (conns s !! i) as [c|]; [|done].
    destruct (conn_pc c); try done.
    destruct (chan_send _ _); [|done].
    intros [= <- <-]; simpl. by rewrite app_nil_r.
  - destruct (conns s !! i) as [c|]; [|done].
    destruct (conn_pc c); try done.
    intros [= <- <-]; simpl. by rewrite app_nil_r.
  - destruct (chan_recv _) as [[req rest]|]; [|done].
    intros [= <- <-]; simpl. unfold blocks. simpl. by rewrite app_nil_r.
Qed.

Lemma run_blocks evs : ∀ s os s',
  hrun s evs = Some (os, s') → Stdout s' = Stdout s ++ hblocks (dequeued os).
Proof.
  induction evs as [|e evs IH]; intros s os s'; simpl.
  - intros [= <- <-]. by rewrite app_nil_r.
  - destruct (hstep s e) as [[o s1]|] eqn:Hstep; [|done].
    destruct (hrun s1 evs) as [[os1 s2]|] eqn:Hrun; [|done].
    intros [= <- <-].
    rewrite (IH _ _ _ Hrun), (step_blocks _ _ _ _ Hstep).
    by rewrite (dequeued_cons o os1), blocks_app, (assoc_L (++)).
Qed.

Lemma blocks_cons dump p dq :
  blocks Sprint URL_String range dump (p :: dq)
  = render_request Sprint URL_String range dump p.2 p.1
    ++ blocks Sprint URL_String range dump dq.
Proof. reflexivity. Qed.

Lemma blocks_quiet dq :
  blocks Sprint URL_String range false dq
  = (λ p, Summary (summary_line Sprint URL_String p.2 p.1)) <$> dq.
Proof.
  induction dq as [|p dq IH]; [done|].
  rewrite blocks_cons, IH, fmap_cons. done.
Qed.

Lemma blocks_dump_length dq :
  length (blocks Sprint URL_String range true dq) = 3 * length dq.
Proof.
  induction dq as [|p dq IH]; [done|].
  rewrite blocks_cons, length_app, IH. simpl. lia.
Qed.

(** X1. Standard output is, under every schedule, the renderer's output for
    the first received request, then that for the second, and so on: the
    lines of two requests are never mixed and a header dump always follows
    the summary line of its own request.  With dumping off the output is the
    summary lines alone; with dumping on it is three writes per request. *)
Theorem stdout_is_blocks fs evs os s :
  hrun (boot fs) evs = Some (os, s) →
  Stdout s = hblocks (dequeued os)
  ∧ (DumpRequest h = false →
       Stdout s = (λ p, Summary (summary_line Sprint URL_String p.2 p.1)) <$> dequeued os)
  ∧ (DumpRequest h = true → length (Stdout s) = 3 * length (dequeued os)).
Proof.
  intros Hrun. apply run_blocks in Hrun. simpl in Hrun.
  split_and!; [done| |].
  - intros Hq. by rewrite Hrun, Hq, blocks_quiet.
  - intros Hd. by rewrite Hrun, Hd, blocks_dump_length.
Qed.

(** ** Who has been logged, who has been served *)

Lemma filter_insert_enter {A} (P : A → Prop) `{!∀ x, Decision (P x)} (l : list A) :
  ∀ i c c', l !! i = Some c → ¬ P c → P c' →
    filter P (<[i := c']> l) ≡ₚ c' :: filter P l.
Proof.
  induction l as [|x l IH]; intros [|i] c c' Hl Hc Hc'; simplify_eq/=.
  - by rewrite filter_cons_True, filter_cons_False.
  - destruct (decide (P x)).
    + rewrite !filter_cons_True by done. rewrite (IH _ _ _ Hl Hc Hc').
      apply Permutation_swap.
    + rewrite !filter_cons_False by done. by eapply IH.
Qed.

Lemma filter_insert_stay {A B} (P : A → Prop) `{!∀ x, Decision (P x)}
    (f : A → B) (l : list A) :
  ∀ i c c', l !! i = Some c → P c → P c' → f c' = f c →
    f <$> filter P (<[i := c']> l) = f <$> filter P l.
Proof.
  induction l as [|x l IH]; intros [|i] c c' Hl Hc Hc' Hf; simplify_eq/=.
  - rewrite !filter_cons_True by done. simpl. by rewrite Hf.
  - destruct (decide (P x)).
    + rewrite !filter_cons_True by done. simpl. f_equal. by eapply IH.
    + rewrite !filter_cons_False by done. by eapply IH.
Qed.

Lemma filter_insert_outside {A} (P : A → Prop) `{!∀ x, Decision (P x)} (l : list A) :
  ∀ i c c', l !! i = Some c → ¬ P c → ¬ P c' →
    filter P (<[i := c']> l) = filter P l.
Proof.
  induction l as [|x l IH]; intros [|i] c c' Hl Hc Hc'; simplify_eq/=.
  - by rewrite !filter_cons_False.
  - destruct (decide (P x)).
    + rewrite !filter_cons_True by done. f_equal. by eapply IH.
    + rewrite !filter_cons_False by done. by eapply IH.
Qed.

Lemma fmap_insert_same {A B} (f : A → B) (l : list A) i c c' :
  l !! i = Some c → f c' = f c → f <$> <[i := c']> l = f <$> l.
Proof.
  intros Hl Hf. rewrite list_fmap_insert, Hf.
  apply list_insert_id. by rewrite list_lookup_fmap, Hl.
Qed.

Lemma finished_sublist_past (l : list Conn) :
  filter finished l `sublist_of` filter past_send l.
Proof.
  induction l as [|c l IH]; [done|].
  destruct (decide (finished c)) as [Hf|Hf].
  - rewrite filter_cons_True by done.
    rewrite (filter_cons_True past_send); [by constructor|].
    unfold finished, past_send in *. by rewrite Hf.
  - rewrite filter_cons_False by done.
    destruct (decide (past_send c)).
    + rewrite filter_cons_True by done. by constructor.
    + by rewrite filter_cons_False.
Qed.

Lemma step_accounting s e o s' :
  hstep s e = Some (o, s') →
  conn_req <$> conns s' = (conn_req <$> conns s) ++ arrived [o]
  ∧ conn_req <$> filter past_send (conns s')
    ≡ₚ (conn_req <$> filter past_send (conns s)) ++ enqueued [o]
  ∧ conn_req <$> filter finished (conns s')
    ≡ₚ (conn_req <$> filter finished (conns s)) ++ served [o].
Proof.
  destruct e as [r | i | i env | now]; simpl.
  - intros [= <- <-]; simpl. rewrite !filter_app, !fmap_app.
    rewrite (filter_cons_False past_send) by (unfold past_send; simpl; tauto).
    rewrite (filter_cons_False finished) by done.
    by rewrite !filter_nil.
  - destruct (conns s !! i) as [c|] eqn:Hc; [|done].
    destruct (conn_pc c) eqn:Hpc; try done.
    destruct (chan_send _ _); [|done].
    intros [= <- <-]; simpl. unfold set_conn. rewrite !app_nil_r.
    split_and!.
    + by apply (fmap_insert_same _ _ _ c).
    + rewrite (filter_insert_enter past_send _ _ c); simpl.
      * apply Permutation_cons_append.
      * done.
      * unfold past_send. rewrite Hpc. tauto.
      * done.
    + rewrite (filter_insert_outside finished _ _ c); [done..| |done].
      unfold finished. by rewrite Hpc.
  - destruct (conns s !! i) as [c|] eqn:Hc; [|done].
    destruct (conn_pc c) eqn:Hpc; try done.
    intros [= <- <-]; simpl. unfold set_conn. rewrite !app_nil_r.
    split_and!.
    + by apply (fmap_insert_same _ _ _ c).
    + rewrite (filter_insert_stay past_send conn_req _ _ c); [done..| |done|done].
      unfold past_send. by rewrite Hpc.
    + rewrite (filter_insert_enter finished _ _ c); simpl.
      * apply Permutation_cons_append.
      * done.
      * unfold finished. by rewrite Hpc.
      * done.
  - destruct (chan_recv _) as [[req rest]|]; [|done].
    intros [= <- <-]; simpl. by rewrite !app_nil_r.
Qed.

Lemma arrived_cons o os : arrived (o :: os) = arrived [o] ++ arrived os.
Proof. by destruct o. Qed.

Lemma served_cons o os : served (o :: os) = served [o] ++ served os.
Proof. by destruct o. Qed.

Lemma run_accounting evs : ∀ s os s',
  hrun s evs = Some (os, s') →
  conn_req <$> conns s' = (conn_req <$> conns s) ++ arrived os
  ∧ conn_req <$> filter past_send (conns s')
    ≡ₚ (conn_req <$> filter past_send (conns s)) ++ enqueued os
  ∧ conn_req <$> filter finished (conns s')
    ≡ₚ (conn_req <$> filter finished (conns s)) ++ served os.
Proof.
  induction evs as [|e evs IH]; intros s os s'; simpl.
  - intros [= <- <-]. by rewrite !app_nil_r.
  - destruct (hstep s e) as [[o s1]|] eqn:Hstep; [|done].
    destruct (hrun s1 evs) as [[os1 s2]|] eqn:Hrun; [|done].
    intros [= <- <-].
    apply step_accounting in Hstep as (Ha1 & He1 & Hs1).
    apply IH in Hrun as (Ha2 & He2 & Hs2).
    rewrite (arrived_cons o os1), (enqueued_cons o os1), (served_cons o os1).
    split_and!.
    + by rewrite Ha2, Ha1, (assoc_L (++)).
    + by rewrite He2, He1, (assoc_L (++)).
    + by rewrite Hs2, Hs1, (assoc_L (++)).
Qed.

(** X2. Under every schedule: there is one goroutine per accepted request,
    in order of arrival and never removed; the requests sent on the log
    channel are exactly those of the goroutines past their send, each once;
    the requests served are exactly those of the goroutines that have
    returned.  So a request is handed to the delegate only after it has
    been sent to the renderer, it is sent at most once, and the renderer
    receives only requests that were sent, in the order of the sends. *)
Theorem logged_before_served fs evs os s :
  hrun (boot fs) evs = Some (os, s) →
  conn_req <$> conns s = arrived os
  ∧ conn_req <$> filter past_send (conns s) ≡ₚ enqueued os
  ∧ conn_req <$> filter finished (conns s) ≡ₚ served os
  ∧ served os ⊆+ enqueued os
  ∧ enqueued os ⊆+ arrived os
  ∧ (dequeued os).*1 `prefix_of` enqueued os.
Proof.
  intros Hrun.
  pose proof (run_fifo Sprint URL_String range h _ _ _ _ Hrun) as (Hq & _).
  apply run_accounting in Hrun as (Ha & He & Hs). simpl in *.
  split_and!; [done..| | |].
  - rewrite <- Hs, <- He. apply sublist_submseteq, fmap_sublist.
    apply finished_sublist_past.
  - rewrite <- He, <- Ha. apply sublist_submseteq, fmap_sublist.
    apply sublist_filter.
  - rewrite <- Hq. by apply prefix_app_r.
Qed.

End OutputFacts.

(** ** What the log and the service do not depend on *)

Section Independence.

Variable Sprint : Color → string → string.
Variable URL_String : Url.t → string.
Variable range : Header → list (string * list string).

Lemma step_same_log h1 h2 s1 s2 e o s1' :
  DumpRequest h1 = DumpRequest h2 → same_log s1 s2 →
  step Sprint URL_String range h1 s1 e = Some (o, s1') →
  ∃ s2', step Sprint URL_String range h2 s2 e = Some (o, s2') ∧ same_log s1' s2'.
Proof.
  intros Hdump (Hch & Hout & Hcs).
  destruct e as [r | i | i env | now]; simpl.
  - intros [= <- <-]. eexists. split; [done|].
    split_and!; simpl; [done..|]. apply Forall2_app; [done|]. by repeat constructor.
  - destruct (conns s1 !! i) as [c1|] eqn:Hc1; [|done].
    destruct (Forall2_lookup_l _ _ _ _ _ Hcs Hc1) as (c2 & Hc2 & Hreq & Hpc).
    rewrite Hc2, <- Hpc, <- Hreq, <- Hch.
    destruct (conn_pc c1); try done.
    destruct (chan_send _ _); [|done].
    intros [= <- <-]. eexists. split; [done|].
    split_and!; simpl; [done..|]. unfold set_conn. by apply Forall2_insert.
  - destruct (conns s1 !! i) as [c1|] eqn:Hc1; [|done].
    destruct (Forall2_lookup_l _ _ _ _ _ Hcs Hc1) as (c2 & Hc2 & Hreq & Hpc).
    rewrite Hc2, <- Hpc, <- Hreq.
    destruct (conn_pc c1); try done.
    intros [= <- <-]. eexists. split; [done|].
    split_and!; simpl; [done..|]. unfold set_conn. by apply Forall2_insert.
  - rewrite <- Hch. destruct (chan_recv _) as [[req rest]|]; [|done].
    intros [= <- <-]. eexists. split; [done|].
    split_and!; simpl; [done| |done]. by rewrite Hout, Hdump.
Qed.

Lemma run_same_log h1 h2 evs : ∀ s1 s2 os s1',
  DumpRequest h1 = DumpRequest h2 → same_log s1 s2 →
  run Sprint URL_String range h1 s1 evs = Some (os, s1') →
  ∃ s2', run Sprint URL_String range h2 s2 evs = Some (os, s2') ∧ same_log s1' s2'.
Proof.
  induction evs as [|e evs IH]; intros s1 s2 os s1' Hdump Hsame; simpl.
  - intros [= <- <-]. by exists s2.
  - destruct (step _ _ _ h1 s1 e) as [[o t1]|] eqn:Hstep; [|done].
    destruct (run _ _ _ h1 t1 evs) as [[os1 u1]|] eqn:Hrun; [|done].
    intros [= <- <-].
    destruct (step_same_log _ _ _ _ _ _ _ Hdump Hsame Hstep) as (t2 & -> & Hsame').
    destruct (IH _ _ _ _ Hdump Hsame' Hrun) as (u2 & -> & Hsame'').
    by exists u2.
Qed.

(** X3. What is printed does not depend on the delegate or on the files.
    Two servers with the same dump setting, whatever their delegates (file
    server, upload sink, none, one that panics) and whatever files they
    start with, can run the same schedules, and under a schedule they make
    the same observations, print the same output and hold the same requests
    in the channel. *)
Theorem log_ignores_delegate h1 h2 fs1 fs2 evs os s1 :
  DumpRequest h1 = DumpRequest h2 →
  run Sprint URL_String range h1 (boot fs1) evs = Some (os, s1) →
  ∃ s2, run Sprint URL_String range h2 (boot fs2) evs = Some (os, s2)
        ∧ Stdout s2 = Stdout s1 ∧ Logger s2 = Logger s1
        ∧ conn_req <$> conns s2 = conn_req <$> conns s1
        ∧ conn_pc <$> conns s2 = conn_pc <$> conns s1.
Proof.
  intros Hdump Hrun.
  destruct (run_same_log h1 h2 evs (boot fs1) (boot fs2) os s1 Hdump) as
    (s2 & Hrun2 & Hch & Hout & Hcs); [by repeat split; constructor|done|].
  exists s2. split_and!; [done..| |].
  - clear -Hcs. induction Hcs as [|c1 c2 l1 l2 [Hreq _] _ IH]; [done|].
    rewrite !fmap_cons. by f_equal.
  - clear -Hcs. induction Hcs as [|c1 c2 l1 l2 [_ Hpc] _ IH]; [done|].
    rewrite !fmap_cons. by f_equal.
Qed.

Lemma step_same_service h1 h2 s1 s2 e o s1' :
  Delegate h1 = Delegate h2 → same_service s1 s2 →
  step Sprint URL_String range h1 s1 e = Some (o, s1') →
  ∃ s2', step Sprint URL_String range h2 s2 e = Some (o, s2') ∧ same_service s1' s2'.
Proof.
  intros Hd (Hch & Hcs & Hfs).
  destruct e as [r | i | i env | now]; simpl.
  - intros [= <- <-]. eexists. split; [done|]. split_and!; simpl; congruence.
  - rewrite <- Hcs, <- Hch. destruct (conns s1 !! i) as [c|]; [|done].
    destruct (conn_pc c); try done.
    destruct (chan_send _ _); [|done].
    intros [= <- <-]. eexists. split; [done|].
    split_and!; simpl; [done| |done]. unfold set_conn. by rewrite Hcs.
  - rewrite <- Hcs, <- Hfs. destruct (conns s1 !! i) as [c|]; [|done].
    destruct (conn_pc c); try done.
    unfold delegate. rewrite <- Hd.
    intros [= <- <-]. eexists. split; [done|].
    split_and!; simpl; [done| |done]. unfold set_conn. by rewrite Hcs.
  - rewrite <- Hch. destruct (chan_recv _) as [[req rest]|]; [|done].
    intros [= <- <-]. eexists. split; [done|]. by split_and!.
Qed.

Lemma run_same_service h1 h2 evs : ∀ s1 s2 os s1',
  Delegate h1 = Delegate h2 → same_service s1 s2 →
  run Sprint URL_String range h1 s1 evs = Some (os, s1') →
  ∃ s2', run Sprint URL_String range h2 s2 evs = Some (os, s2') ∧ same_service s1' s2'.
Proof.
  induction evs as [|e evs IH]; intros s1 s2 os s1' Hd Hsame; simpl.
  - intros [= <- <-]. by exists s2.
  - destruct (step _ _ _ h1 s1 e) as [[o t1]|] eqn:Hstep; [|done].
    destruct (run _ _ _ h1 t1 evs) as [[os1 u1]|] eqn:Hrun; [|done].
    intros [= <- <-].
    destruct (step_same_service _ _ _ _ _ _ _ Hd Hsame Hstep) as (t2 & -> & Hsame').
    destruct (IH _ _ _ _ Hd Hsame' Hrun) as (u2 & -> & Hsame'').
    by exists u2.
Qed.

Variable FormFile : Request → string → string + (string * string).
Variable FileServer : string → Handler.

(** X4. The dont-dump flag changes what is printed and nothing else.  The
    handlers [main] builds with the flag on and off have the same delegate,
    and under every schedule the two servers make the same observations and
    end with the same responses, the same files and the same channel. *)
Theorem quiet_flag_only_changes_output f b fs evs os s1 :
  run Sprint URL_String range (main_handler FormFile FileServer f) (boot fs) evs
  = Some (os, s1) →
  DumpRequest (main_handler FormFile FileServer (with_dontDump f b)) = negb b
  ∧ ∃ s2,
      run Sprint URL_String range
        (main_handler FormFile FileServer (with_dontDump f b)) (boot fs) evs
      = Some (os, s2)
      ∧ conns s2 = conns s1 ∧ files s2 = files s1 ∧ Logger s2 = Logger s1.
Proof.
  intros Hrun. split.
  { unfold main_handler; simpl. by destruct (dontServe f), (enableUpload f). }
  assert (Delegate (main_handler FormFile FileServer f)
          = Delegate (main_handler FormFile FileServer (with_dontDump f b))) as Hd.
  { unfold main_handler; simpl. by destruct (dontServe f), (enableUpload f). }
  destruct (run_same_service _ _ evs (boot fs) (boot fs) os s1 Hd) as
    (s2 & Hrun2 & Hch & Hcs & Hfs); [done|done|].
  exists s2. by split_and!.
Qed.

End Independence.

(** ** More on the upload sink *)

Section SinkFacts.

Import Filepath.

Variable FormFile : Request → string → string + (string * string).

(** X5. Every request the sink does not forward ends in one of five ways:
    the upload is in place at the joined path and the response is untouched;
    nothing has changed at all (the upload was renamed onto its own temporary
    name); status 400 from the form parser; status 500 from a failed system
    call; or a panic on a PUT without URL.  In the last four the files are
    exactly those from before the request: an error answer never comes with
    a changed, partial or left-over file. *)
Theorem sink_all_or_nothing dir handler env r fs w :
  select_upload FormFile r ≠ Forwarded →
  (∃ filename filebody,
      select_upload FormFile r = Upload filename filebody
      ∧ handleUploads FormFile dir handler env r fs w
        = Return (<[resolve (Join dir filename) := filebody]> fs) w)
  ∨ handleUploads FormFile dir handler env r fs w = Return fs w
  ∨ (∃ msg, handleUploads FormFile dir handler env r fs w
            = Return fs (Error w msg StatusBadRequest))
  ∨ (∃ msg, handleUploads FormFile dir handler env r fs w
            = Return fs (Error w msg StatusInternalServerError))
  ∨ (∃ msg, handleUploads FormFile dir handler env r fs w = Panic fs w msg).
Proof.
  intros Hsel. unfold handleUploads.
  destruct (select_upload FormFile r) as [|err| |filename filebody] eqn:Hs; [done|..].
  - right; right; left. by eexists.
  - right; right; right; right. by eexists.
  - destruct (OS.CreateTemp env fs dir "lama-upload-*") as [err|[tmp fs1]] eqn:Hc.
    { right; right; right; left. eexists. by apply store_create_fails. }
    destruct (OS.copy_err env) as [[n err]|] eqn:Hcopy.
    { right; right; right; left. eexists. by eapply store_copy_fails. }
    destruct (OS.rename_err env) as [err|] eqn:Hren.
    { right; right; right; left. eexists. by eapply store_rename_fails. }
    rewrite (store_succeeds _ _ _ _ _ _ _ _ Hc Hcopy Hren).
    destruct (decide _); [by right; left|]. left. by eexists _, _.
Qed.

(** X6. Two uploads one after the other, both with their system calls
    succeeding: afterwards the files are those from before with the first
    body at the first path and then the second body at the second path.
    When both name the same file, it holds the second body alone, and
    nothing of the first is left. *)
Theorem second_upload_replaces_first
    dir handler env1 env2 r1 r2 f1 b1 f2 b2 fs w1 w2 t1 g1 t2 g2 :
  select_upload FormFile r1 = Upload f1 b1 →
  select_upload FormFile r2 = Upload f2 b2 →
  OS.CreateTemp env1 fs dir "lama-upload-*" = inr (t1, g1) →
  OS.copy_err env1 = None → OS.rename_err env1 = None →
  resolve t1 ≠ resolve (Join dir f1) →
  OS.CreateTemp env2 (<[resolve (Join dir f1) := b1]> fs) dir "lama-upload-*"
  = inr (t2, g2) →
  OS.copy_err env2 = None → OS.rename_err env2 = None →
  resolve t2 ≠ resolve (Join dir f2) →
  ∃ fs1 fs2,
    handleUploads FormFile dir handler env1 r1 fs w1 = Return fs1 w1
    ∧ handleUploads FormFile dir handler env2 r2 fs1 w2 = Return fs2 w2
    ∧ fs2 = <[resolve (Join dir f2) := b2]> (<[resolve (Join dir f1) := b1]> fs)
    ∧ fs2 !! resolve (Join dir f2) = Some b2
    ∧ (resolve (Join dir f1) = resolve (Join dir f2) →
         fs2 = <[resolve (Join dir f2) := b2]> fs).
Proof.
  intros Hs1 Hs2 Hc1 Hcopy1 Hren1 Hne1 Hc2 Hcopy2 Hren2 Hne2.
  eexists _, _.
  rewrite (handleUploads_Upload _ _ _ _ _ _ _ _ _ Hs1).
  rewrite (store_succeeds _ _ _ _ _ _ _ _ Hc1 Hcopy1 Hren1).
  rewrite decide_False by done. split; [reflexivity|].
  rewrite (handleUploads_Upload _ _ _ _ _ _ _ _ _ Hs2).
  rewrite (store_succeeds _ _ _ _ _ _ _ _ Hc2 Hcopy2 Hren2).
  rewrite decide_False by done. split; [reflexivity|].
  split_and!; [done| |].
  - apply lookup_insert_eq.
  - intros ->. apply insert_insert_eq.
Qed.

Lemma store_upload_same_file dir env f1 f2 filebody fs w :
  resolve (Join dir f1) = resolve (Join dir f2) →
  store_upload dir env f1 filebody fs w = store_upload dir env f2 filebody fs w.
Proof.
  intros Heq. unfold store_upload.
  destruct (OS.CreateTemp env fs dir "lama-upload-*") as [err|[tmp fs1]]; [done|].
  unfold OS.Copy. destruct (OS.copy_err env) as [[n err]|]; [done|].
  unfold OS.Rename. destruct (OS.rename_err env); [done|].
  rewrite lookup_insert_eq, Heq. done.
Qed.

(** X7. Empty elements and [.] elements in the file name do not matter.
    Two uploads into a non-empty directory whose names have no [..] element
    and the same elements once the empty and [.] ones are left out are the
    same upload: same file, same result, whatever the system calls do. *)
Theorem same_elements_same_upload dir handler env r1 r2 f1 f2 filebody fs w :
  select_upload FormFile r1 = Upload f1 filebody →
  select_upload FormFile r2 = Upload f2 filebody →
  dir ≠ "" → ".." ∉ elements f1 → ".." ∉ elements f2 →
  filter (λ e, e ≠ "" ∧ e ≠ ".") (elements f1)
  = filter (λ e, e ≠ "" ∧ e ≠ ".") (elements f2) →
  resolve (Join dir f1) = resolve (Join dir f2)
  ∧ handleUploads FormFile dir handler env r1 fs w
    = handleUploads FormFile dir handler env r2 fs w.
Proof.
  intros Hs1 Hs2 Hd Hn1 Hn2 Heq.
  assert (resolve (Join dir f1) = resolve (Join dir f2)) as Hsame.
  { rewrite !Join_no_dotdot by done. by rewrite Heq. }
  split; [done|].
  rewrite (handleUploads_Upload _ _ _ _ _ _ _ _ _ Hs1).
  rewrite (handleUploads_Upload _ _ _ _ _ _ _ _ _ Hs2).
  by apply store_upload_same_file.
Qed.

Lemma tidy_rooted_named out : tidy true out → Forall (λ e, named e ∧ no_sep e) out.
Proof.
  intros (names & k & -> & Hn & Hk). rewrite (Hk eq_refl). simpl.
  by rewrite app_nil_r.
Qed.

(** A rooted path that [Clean] leaves as it is has no [..] element. *)
Lemma rooted_clean_no_dotdot p :
  IsAbs p = true → Clean p = p → ".." ∉ elements p.
Proof.
  intros Ha Hc. unfold Clean in Hc.
  destruct (decide (p = "")) as [->|_]; [done|].
  pose proof (resolve_tidy p) as Ht. rewrite Ha in Ht.
  apply tidy_rooted_named in Ht.
  apply (f_equal elements) in Hc.
  unfold resolve, clean_elements in Hc. rewrite Ha in Hc.
  set (out := fold_left (clean_step true) (elements p) []) in *.
  apply Forall_rev in Ht.
  rewrite <- Hc. cbn [render].
  change (elements (String Separator (Str.Join (rev out) "/")))
    with ("" :: elements (Str.Join (rev out) "/")).
  destruct (rev out) as [|e es] eqn:Hout.
  - by intros [[=]|[[=]|[]%elem_of_nil]%elem_of_cons]%elem_of_cons.
  - rewrite elements_Join; [|done|].
    + intros [[=]|Hin]%elem_of_cons.
      rewrite Forall_forall in Ht. by destruct (Ht _ Hin) as [(_ & _ & ?) _].
    + eapply Forall_impl; [exact Ht|]. by intros ? [_ ?].
Qed.

(** X8. A PUT whose path is rooted and already in cleaned form, into a
    non-empty directory, is confined: the destination lies inside the
    directory and the request changes no file outside it. *)
Theorem cleaned_path_is_confined dir handler env r u fs w :
  Method r = MethodPut → URL r = Some u → dir ≠ "" →
  IsAbs (Url.Path u) = true → Clean (Url.Path u) = Url.Path u →
  confined dir (Join dir (Url.Path u))
  ∧ (∀ k, result_fs (handleUploads FormFile dir handler env r fs w) !! k ≠ fs !! k →
          within (resolve dir) k).
Proof.
  intros Hm Hu Hd Ha Hc.
  pose proof (rooted_clean_no_dotdot _ Ha Hc) as Hnd.
  assert (confined dir (Join dir (Url.Path u))) as Hconf.
  { unfold confined. rewrite Join_no_dotdot by done.
    by apply within_below, not_dotdot_filter. }
  split; [done|]. intros k Hk.
  rewrite (handleUploads_Upload _ _ _ _ _ _ _ _ _ (select_upload_PUT _ _ _ Hm Hu)) in Hk.
  destruct (store_upload_files dir env (Url.Path u) (Body r) fs w) as [Hfs|Hfs];
    rewrite Hfs in Hk; [done|].
  destruct (decide (k = resolve (Join dir (Url.Path u)))) as [->|Hne]; [done|].
  by rewrite lookup_insert_ne in Hk.
Qed.

(** X9. The temporary file of an upload into a non-empty directory is a new
    file directly inside that directory, named [lama-upload-] and a number;
    creating it changes no other file.  The destination of a plain file
    name (one element, not [.] or [..]) is in the same directory, so the
    rename stays within one directory. *)
Theorem temp_file_beside_destination (env : OS.Env) (fs fs1 : OS.FS)
    (dir tmp name : string) :
  OS.CreateTemp env fs dir "lama-upload-*" = inr (tmp, fs1) →
  dir ≠ "" → named name → no_sep name →
  (∃ n, resolve tmp = ((resolve dir).1, (resolve dir).2 ++ [OS.temp_name n]))
  ∧ resolve (Join dir name) = ((resolve dir).1, (resolve dir).2 ++ [name])
  ∧ confined dir tmp
  ∧ fs !! resolve tmp = None
  ∧ fs1 !! resolve tmp = Some ""
  ∧ (∀ k, k ≠ resolve tmp → fs1 !! k = fs !! k).
Proof.
  intros Hc Hd Hn Hs.
  apply CreateTemp_inr in Hc as (k & Htmp & Hfresh & ->).
  rewrite decide_False in Htmp by done.
  assert (resolve tmp = ((resolve dir).1, (resolve dir).2 ++ [OS.temp_name (OS.random env k)]))
    as Hres.
  { rewrite Htmp. apply resolve_joinPath;
      [done | apply temp_name_named | apply temp_name_no_sep]. }
  split_and!.
  - by eexists.
  - rewrite Join_no_dotdot; [|done|].
    + rewrite elements_single by done.
      rewrite filter_cons_True, filter_nil; [done|].
      destruct Hn as (? & ? & _). done.
    + rewrite elements_single by done.
      intros [Heq|[]%elem_of_nil]%elem_of_cons. destruct Hn as (_ & _ & Hn). by apply Hn.
  - unfold confined. rewrite Hres. apply within_below.
    intros [Heq|[]%elem_of_nil]%elem_of_cons.
    by destruct (temp_name_named (OS.random env k)) as (_ & _ & ?).
  - done.
  - apply lookup_insert_eq.
  - intros j Hj. by rewrite lookup_insert_ne.
Qed.

Lemma Join_not_empty e es : e ≠ "" → Str.Join (e :: es) "/" ≠ "".
Proof.
  intros He. destruct es as [|e' es]; [done|].
  change (Str.Join (e :: e' :: es) "/") with (e +:+ "/" +:+ Str.Join (e' :: es) "/").
  by destruct e.
Qed.

Lemma Clean_not_empty s : Clean s ≠ "".
Proof.
  unfold Clean. destruct (decide (s = "")); [done|].
  unfold resolve, clean_elements.
  pose proof (tidy_Forall _ _ (resolve_tidy s)) as Hall.
  apply Forall_rev in Hall.
  destruct (IsAbs s); [done|]. simpl.
  destruct (rev _) as [|e es]; [done|].
  inversion_clear Hall as [|?? [He _] _]. by apply Join_not_empty.
Qed.

Lemma Clean_render s : render (resolve s) = Clean s.
Proof. unfold Clean. destruct (decide (s = "")) as [->|]; reflexivity. Qed.

(** X10. The path the sink hands to the rename is in cleaned form: cleaning
    a cleaned path changes nothing, and a non-empty result of [Join] is its
    own cleaned form. *)
Theorem Join_result_is_clean a b :
  Clean (Clean a) = Clean a
  ∧ (Join a b ≠ "" → Clean (Join a b) = Join a b)
  ∧ (Join a b = "" ↔ a = "" ∧ b = "").
Proof.
  assert (∀ s, Clean (Clean s) = Clean s) as Hidem.
  { intros s. unfold Clean at 1.
    rewrite decide_False by apply Clean_not_empty.
    by rewrite resolve_Clean, Clean_render. }
  split_and!; [done| |].
  - unfold Join.
    destruct (decide (a = "")); [destruct (decide (b = "")); [done|]|];
      intros _; apply Hidem.
  - unfold Join. split.
    + destruct (decide (a = "")); [destruct (decide (b = "")); [done|]|];
        intros H; by apply Clean_not_empty in H.
    + intros [-> ->]. done.
Qed.

(** X11. A request that is neither a PUT nor a POST with the content type
    [multipart/form-data] is no upload: the sink calls the inner handler with
    the same request, files and response, and returns what it returns.  So
    switching uploads on does not change how [main]'s handler answers such a
    request. *)
Theorem sink_forwards_other_requests
    (FileServer : string → Handler) f dir handler env r fs w :
  Method r ≠ MethodPut →
  Method r ≠ MethodPost ∨ Header_Get (Header_ r) "Content-Type" ≠ "multipart/form-data" →
  select_upload FormFile r = Forwarded
  ∧ handleUploads FormFile dir handler env r fs w = handler env r fs w
  ∧ delegate (main_handler FormFile FileServer (with_enableUpload f true)) env r fs w
    = delegate (main_handler FormFile FileServer (with_enableUpload f false)) env r fs w.
Proof.
  intros Hput Hform.
  assert (select_upload FormFile r = Forwarded) as Hsel.
  { unfold select_upload. rewrite decide_False by done.
    destruct Hform as [Hm|Hct].
    - by rewrite (bool_decide_eq_false_2 _ Hm).
    - by rewrite (bool_decide_eq_false_2 _ Hct), andb_false_r. }
  split; [done|]. split.
  - unfold handleUploads. by rewrite Hsel.
  - unfold delegate, main_handler; simpl. destruct (dontServe f); simpl; [done|].
    unfold handleUploads. by rewrite Hsel.
Qed.

End SinkFacts.

(** ** The header block and the banner *)

Section DumpFacts.

Variable Sprint : Color → string → string.
Variable range : Header → list (string * list string).

Lemma header_line_shape name value :
  header_line Sprint name value
  = "        " +:+ Sprint fgHeader name +:+ tab +:+ value +:+ crlf.
Proof. reflexivity. Qed.


End DumpFacts.

Section BannerFacts.

Variable FormFile : Request → string → string + (string * string).
Variable FileServer : string → Handler.

(** X13. The banner says what is installed: it names no files exactly when
    there is no delegate, and it starts with the files statement exactly
    when there is one; with serving and uploads on, it ends with the upload
    remark and the delegate is the sink around the file server of the same
    directory. *)
Theorem banner_matches_delegate f :
  (fileStatement f = "" ↔ Delegate (main_handler FormFile FileServer f) = None)
  ∧ (Str.HasPrefix (fileStatement f) "files from " = true
     ↔ is_Some (Delegate (main_handler FormFile FileServer f)))
  ∧ (dontServe f = false → enableUpload f = true →
       fileStatement f = "files from " +:+ dir f +:+ " (with upload support) "
       ∧ Delegate (main_handler FormFile FileServer f)
         = Some (handleUploads FormFile (dir f) (FileServer (dir f))))
  ∧ (dontServe f = false → enableUpload f = false →
       fileStatement f = "files from " +:+ dir f +:+ " "
       ∧ Delegate (main_handler FormFile FileServer f) = Some (FileServer (dir f))).
Proof.
  unfold fileStatement, main_handler.
  destruct (dontServe f), (enableUpload f); simpl; split_and!;
    try done; try (split; [done | by intros [? [=]]]);
    try (split; [intros _; by eexists | done]).
  - split; [intros _; by eexists | intros _; by destruct (_ +:+ _)].
  - intros _ _. split; [|done]. by rewrite !append_assoc.
  - split; [intros _; by eexists | intros _; by destruct (_ +:+ _)].
Qed.

End BannerFacts.

(** ** The files under a running server *)

Section ServerFiles.

Import Filepath.

Variable Sprint : Color → string → string.
Variable URL_String : Url.t → string.
Variable range : Header → list (string * list string).
Variable FormFile : Request → string → string + (string * string).
Variable FileServer : string → Handler.

(** The file server only reads. *)
Hypothesis FileServer_reads :
  ∀ d env r fs w, result_fs (FileServer d env r fs w) = fs.





End ServerFiles.

(** ** The further properties at sample inputs *)

Lemma stdout_blocks_overtaking :
  length (Stdout (Sample.after Sample.overtaking).2)
  = 3 * length (dequeued (Sample.after Sample.overtaking).1).
Proof.
  assert (run Sample.plain Sample.path_only Sample.in_key_order Sample.no_delegate
            (boot ∅) Sample.overtaking
          = Some ((Sample.after Sample.overtaking).1, (Sample.after Sample.overtaking).2))
    as Hrun by by vm_compute.
  destruct (stdout_is_blocks _ _ _ _ _ _ _ _ Hrun) as (_ & _ & Hdump).
  apply Hdump. reflexivity.
Defined.

Lemma logged_before_served_overtaking :
  served (Sample.after Sample.overtaking).1 ⊆+ enqueued (Sample.after Sample.overtaking).1.
Proof.
  assert (run Sample.plain Sample.path_only Sample.in_key_order Sample.no_delegate
            (boot ∅) Sample.overtaking
          = Some ((Sample.after Sample.overtaking).1, (Sample.after Sample.overtaking).2))
    as Hrun by by vm_compute.
  destruct (logged_before_served _ _ _ _ _ _ _ _ Hrun) as (_ & _ & _ & Hsub & _).
  exact Hsub.
Defined.

Lemma log_ignores_sink :
  ∃ s2, run Sample.plain Sample.path_only Sample.in_key_order Sample.with_sink
          (boot ∅) Sample.overtaking
        = Some ((Sample.after Sample.overtaking).1, s2)
        ∧ Stdout s2 = Stdout (Sample.after Sample.overtaking).2.
Proof.
  assert (run Sample.plain Sample.path_only Sample.in_key_order Sample.no_delegate
            (boot ∅) Sample.overtaking
          = Some ((Sample.after Sample.overtaking).1, (Sample.after Sample.overtaking).2))
    as Hrun by by vm_compute.
  destruct (log_ignores_delegate Sample.plain Sample.path_only Sample.in_key_order
              Sample.no_delegate Sample.with_sink ∅ ∅ _ _ _ eq_refl Hrun)
    as (s2 & Hrun2 & Hout & _).
  by exists s2.
Defined.

Lemma quiet_flag_overtaking :
  ∃ s2, run Sample.plain Sample.path_only Sample.in_key_order
          (main_handler Sample.found_bar Sample.file_server
             (with_dontDump (Sample.flags true false) true))
          (boot ∅) Sample.overtaking
        = Some ((Sample.after Sample.overtaking).1, s2)
        ∧ conns s2 = conns (Sample.after Sample.overtaking).2
        ∧ files s2 = files (Sample.after Sample.overtaking).2
        ∧ Logger s2 = Logger (Sample.after Sample.overtaking).2.
Proof.
  assert (run Sample.plain Sample.path_only Sample.in_key_order
            (main_handler Sample.found_bar Sample.file_server (Sample.flags true false))
            (boot ∅) Sample.overtaking
          = Some ((Sample.after Sample.overtaking).1, (Sample.after Sample.overtaking).2))
    as Hrun by by vm_compute.
  exact (proj2 (quiet_flag_only_changes_output Sample.plain Sample.path_only
                  Sample.in_key_order Sample.found_bar Sample.file_server
                  (Sample.flags true false) true ∅ Sample.overtaking _ _ Hrun)).
Defined.

Lemma sink_all_or_nothing_short_write :
  (∃ filename filebody,
      select_upload Sample.found_bar (Sample.put "/foo.txt" "hello")
      = Upload filename filebody
      ∧ handleUploads Sample.found_bar "/srv/www" Sample.not_found Sample.short_write
          (Sample.put "/foo.txt" "hello") ∅ untouched
        = Return (<[Filepath.resolve (Filepath.Join "/srv/www" filename) := filebody]> ∅)
                 untouched)
  ∨ handleUploads Sample.found_bar "/srv/www" Sample.not_found Sample.short_write
      (Sample.put "/foo.txt" "hello") ∅ untouched = Return ∅ untouched
  ∨ (∃ msg, handleUploads Sample.found_bar "/srv/www" Sample.not_found Sample.short_write
              (Sample.put "/foo.txt" "hello") ∅ untouched
            = Return ∅ (Error untouched msg StatusBadRequest))
  ∨ (∃ msg, handleUploads Sample.found_bar "/srv/www" Sample.not_found Sample.short_write
              (Sample.put "/foo.txt" "hello") ∅ untouched
            = Return ∅ (Error untouched msg StatusInternalServerError))
  ∨ (∃ msg, handleUploads Sample.found_bar "/srv/www" Sample.not_found Sample.short_write
              (Sample.put "/foo.txt" "hello") ∅ untouched = Panic ∅ untouched msg).
Proof.
  apply (sink_all_or_nothing Sample.found_bar "/srv/www" Sample.not_found
           Sample.short_write (Sample.put "/foo.txt" "hello") ∅ untouched).
  discriminate.
Defined.

Lemma second_upload_replaces_hello :
  ∃ fs1 fs2,
    handleUploads Sample.found_bar "/srv/www" Sample.not_found Sample.calm
      (Sample.put "/foo.txt" "hello") ∅ untouched = Return fs1 untouched
    ∧ handleUploads Sample.found_bar "/srv/www" Sample.not_found Sample.calm
        (Sample.put "/foo.txt" "world") fs1 untouched = Return fs2 untouched
    ∧ fs2 = <[Filepath.resolve (Filepath.Join "/srv/www" "/foo.txt") := "world"]>
              (<[Filepath.resolve (Filepath.Join "/srv/www" "/foo.txt") := "hello"]> ∅)
    ∧ fs2 !! Filepath.resolve (Filepath.Join "/srv/www" "/foo.txt") = Some "world"
    ∧ (Filepath.resolve (Filepath.Join "/srv/www" "/foo.txt")
       = Filepath.resolve (Filepath.Join "/srv/www" "/foo.txt") →
         fs2 = <[Filepath.resolve (Filepath.Join "/srv/www" "/foo.txt") := "world"]> ∅).
Proof.
  assert (Filepath.resolve Sample.first_temp
          ≠ Filepath.resolve (Filepath.Join "/srv/www" "/foo.txt")) as Hne
    by by vm_compute.
  assert (OS.CreateTemp Sample.calm ∅ "/srv/www" "lama-upload-*"
          = inr (Sample.first_temp, Sample.with_first_temp)) as Hc1.
  { apply (CreateTemp_first Sample.calm ∅ "/srv/www");
      [discriminate | reflexivity | apply lookup_empty]. }
  assert (OS.CreateTemp Sample.calm
            (<[Filepath.resolve (Filepath.Join "/srv/www" "/foo.txt") := "hello"]> ∅)
            "/srv/www" "lama-upload-*"
          = inr (Sample.first_temp,
                 <[Filepath.resolve Sample.first_temp := ""]>
                   (<[Filepath.resolve (Filepath.Join "/srv/www" "/foo.txt") := "hello"]> ∅)))
    as Hc2.
  { apply (CreateTemp_first Sample.calm _ "/srv/www"); [discriminate | reflexivity |].
    rewrite lookup_insert_ne; [apply lookup_empty|]. intros Heq. by apply Hne. }
  exact (second_upload_replaces_first Sample.found_bar "/srv/www" Sample.not_found
           Sample.calm Sample.calm (Sample.put "/foo.txt" "hello")
           (Sample.put "/foo.txt" "world") "/foo.txt" "hello" "/foo.txt" "world"
           ∅ untouched untouched _ _ _ _
           eq_refl eq_refl Hc1 eq_refl eq_refl Hne Hc2 eq_refl eq_refl Hne).
Defined.

Lemma same_upload_with_extra_slashes :
  Filepath.resolve (Filepath.Join "/srv/www" "/a//b")
  = Filepath.resolve (Filepath.Join "/srv/www" "/a/./b").
Proof.
  refine (proj1 (same_elements_same_upload Sample.found_bar "/srv/www" Sample.not_found
                   Sample.calm (Sample.put "/a//b" "x") (Sample.put "/a/./b" "x")
                   "/a//b" "/a/./b" "x" ∅ untouched eq_refl eq_refl _ _ _ _)).
  - discriminate.
  - apply (bool_decide_unpack _). by vm_compute.
  - apply (bool_decide_unpack _). by vm_compute.
  - by vm_compute.
Defined.

Lemma cleaned_path_foo :
  Filepath.confined "/srv/www" (Filepath.Join "/srv/www" "/docs/foo.txt").
Proof.
  refine (proj1 (cleaned_path_is_confined Sample.found_bar "/srv/www" Sample.not_found
                   Sample.calm (Sample.put "/docs/foo.txt" "hello")
                   {| Url.Path := "/docs/foo.txt"; Url.Host := "" |} ∅ untouched
                   eq_refl eq_refl _ eq_refl _)).
  - discriminate.
  - by vm_compute.
Defined.

Lemma temp_file_beside_foo :
  Filepath.resolve (Filepath.Join "/srv/www" "foo.txt")
  = ((Filepath.resolve "/srv/www").1, (Filepath.resolve "/srv/www").2 ++ ["foo.txt"])
  ∧ Filepath.confined "/srv/www" Sample.first_temp.
Proof.
  destruct (temp_file_beside_destination Sample.calm ∅ Sample.with_first_temp
              "/srv/www" Sample.first_temp "foo.txt") as (_ & Hdest & Hconf & _).
  - apply (CreateTemp_first Sample.calm ∅ "/srv/www");
      [discriminate | reflexivity | apply lookup_empty].
  - discriminate.
  - by repeat split.
  - reflexivity.
  - by split.
Defined.

Lemma Join_result_is_clean_foo :
  Filepath.Clean (Filepath.Join "/srv/www" "../x//y") = Filepath.Join "/srv/www" "../x//y".
Proof.
  destruct (Join_result_is_clean "/srv/www" "../x//y") as (_ & Hclean & _).
  apply Hclean. by vm_compute.
Defined.

Lemma sink_forwards_get :
  handleUploads Sample.found_bar "/srv/www" Sample.not_found Sample.calm
    (Sample.get "/index.html") ∅ untouched
  = Sample.not_found Sample.calm (Sample.get "/index.html") ∅ untouched.
Proof.
  destruct (sink_forwards_other_requests Sample.found_bar Sample.file_server
              (Sample.flags false true) "/srv/www" Sample.not_found Sample.calm
              (Sample.get "/index.html") ∅ untouched) as (_ & Hfwd & _).
  - discriminate.
  - left. discriminate.
  - exact Hfwd.
Defined.


Example dump_block_proxied_text :
  dump_lines Sample.plain Sample.in_key_order Sample.proxied
  ≡ₚ ["        Accept:" +:+ tab +:+ "text/html, */*" +:+ crlf;
      "        User-Agent:" +:+ tab +:+ "curl/8.0" +:+ crlf].
Proof.
  assert (dump_lines Sample.plain Sample.in_key_order Sample.proxied
          = ["        Accept:" +:+ tab +:+ "text/html, */*" +:+ crlf;
             "        User-Agent:" +:+ tab +:+ "curl/8.0" +:+ crlf]
          ∨ dump_lines Sample.plain Sample.in_key_order Sample.proxied
            = ["        User-Agent:" +:+ tab +:+ "curl/8.0" +:+ crlf;
               "        Accept:" +:+ tab +:+ "text/html, */*" +:+ crlf]) as [-> | ->].
  { vm_compute. auto. }
  - done.
  - apply Permutation_swap.
Qed.

Lemma banner_with_uploads :
  fileStatement (Sample.flags false true) = "files from /srv/www (with upload support) ".
Proof.
  destruct (banner_matches_delegate Sample.found_bar Sample.file_server
              (Sample.flags false true)) as (_ & _ & Hup & _).
  destruct (Hup eq_refl eq_refl) as [Hstmt _]. exact Hstmt.
Defined.

